(** * Transcript evaluator: the accreditation checker of Transcript.py

    A shallow embedding of [check_accreditation] (Transcript.py, lines
    99-118) and of the six registry adapters it dispatches to (lines
    120-157), together with the memoisation that
    [functools.lru_cache(maxsize=1000)] puts in front of it.

    Python values are modelled as follows.
    - [str] is a list of Unicode code points ([pystr]).
    - The outside world (the registries and the random generator) is a
      [world]: what each HTTP request is answered with, and the stream of
      values [random.random()] produces.
    - Everything the function does to its environment is recorded in a
      [state]: the memoisation cache, the trace of observable events
      (sleeps, HTTP requests, [st.error] messages) and the number of random
      draws made so far.
    - A computation is a function [world -> state -> outcome * state]; an
      outcome is a value or a raised exception.
    - A duration is the rational number the [float] stands for; where the
      code computes one (line 102) the rounding of binary64 is written
      out. [convert_gpa] is on hardware floats. *)

From Stdlib Require Import String Ascii List NArith ZArith QArith Bool Sorted Lia Lqa.
From Stdlib Require Import Qround Qabs Qpower Floats Permutation.
Import ListNotations.

(** ** Strings *)

Definition pystr := list N.

(** An ASCII literal of the source, as code points. *)
Definition py (s : string) : pystr :=
  map N_of_ascii (list_ascii_of_string s).

Fixpoint str_eqb (a b : pystr) : bool :=
  match a, b with
  | [], [] => true
  | x :: a', y :: b' => N.eqb x y && str_eqb a' b'
  | _, _ => false
  end.

Fixpoint startswith (p s : pystr) : bool :=
  match p, s with
  | [], _ => true
  | x :: p', y :: s' => N.eqb x y && startswith p' s'
  | _ :: _, [] => false
  end.

(** [needle in hay] on [str]. *)
Fixpoint contains (needle hay : pystr) : bool :=
  startswith needle hay
  || match hay with
     | [] => false
     | _ :: hay' => contains needle hay'
     end.

Definition is_ascii (c : N) : bool := N.ltb c 128.

Definition ascii_lower (c : N) : N :=
  if N.leb 65 c && N.leb c 90 then (c + 32)%N else c.

(** ** The parsed document of BeautifulSoup

    A tree of tags and strings; the multi-valued [class] attribute is kept
    as a list, the other attributes as strings. *)

#[warnings="-register-all"]
Inductive node : Type :=
| NavigableString (s : pystr)
| Tag (name : pystr) (classes : list pystr) (attrs : list (pystr * pystr))
      (contents : list node).

Fixpoint descendants (n : node) : list node :=
  match n with
  | NavigableString _ => [n]
  | Tag _ _ _ cs => n :: flat_map descendants cs
  end.

(** [tag.text] : the strings below the tag, concatenated. *)
Fixpoint get_text (n : node) : pystr :=
  match n with
  | NavigableString s => s
  | Tag _ _ _ cs => flat_map get_text cs
  end.

Fixpoint lookup (k : pystr) (l : list (pystr * pystr)) : option pystr :=
  match l with
  | [] => None
  | (k', v) :: l' => if str_eqb k k' then Some v else lookup k l'
  end.

Definition tag_matches (name : pystr) (attrs : list (pystr * pystr)) (n : node) : bool :=
  match n with
  | NavigableString _ => false
  | Tag nm _ ats _ =>
      str_eqb nm name
      && forallb (fun kv => match lookup (fst kv) ats with
                            | Some v => str_eqb v (snd kv)
                            | None => false
                            end) attrs
  end.

(** [soup.find(name, attrs)] : the first matching tag in document order. *)
Definition find (soup : list node) (name : pystr) (attrs : list (pystr * pystr))
  : option node :=
  List.find (tag_matches name attrs) (flat_map descendants soup).

Definition has_class (name cls : pystr) (n : node) : bool :=
  match n with
  | NavigableString _ => false
  | Tag nm cl _ _ => str_eqb nm name && existsb (str_eqb cls) cl
  end.

(** [soup.select('name.cls')]. *)
Definition select_class (soup : list node) (name cls : pystr) : list node :=
  filter (has_class name cls) (flat_map descendants soup).

(** [soup.select('aname.acls name')] : the [name] tags below an
    [aname.acls] tag, in document order. *)
Fixpoint select_below (aname acls name : pystr) (inside : bool) (n : node)
  : list node :=
  match n with
  | NavigableString _ => []
  | Tag nm _ _ cs =>
      (if inside && str_eqb nm name then [n] else [])
      ++ flat_map (select_below aname acls name (inside || has_class aname acls n)) cs
  end.

Definition select_descendant (soup : list node) (aname acls name : pystr)
  : list node :=
  flat_map (select_below aname acls name false) soup.

(** ** Exceptions, requests, events *)

Inductive re_error_kind : Type :=
| UnbalancedParenthesis
| MissingParenthesis
| OtherReError.

Inductive exn : Type :=
| ConnectionError
| Timeout
| RequestException (msg : pystr)
| TypeError
| KeyError (key : pystr)
| ReError (k : re_error_kind)
| RecursionError.

Inductive outcome (A : Type) : Type :=
| Ok (a : A)
| Raise (e : exn).
Arguments Ok {A} a.
Arguments Raise {A} e.

Inductive http_method : Type := GET | POST.

Record request : Type := mkRequest {
  method : http_method;
  url : pystr;
  data : list (pystr * pystr)
}.

Record response : Type := mkResponse {
  status_code : Z;
  text : pystr
}.

Inductive event : Type :=
| Sleep (seconds : Q)
| Http (r : request)
| StError (e : exn).

Definition is_http (e : event) : bool :=
  match e with Http _ => true | _ => false end.

Definition is_sleep (e : event) : bool :=
  match e with Sleep _ => true | _ => false end.

Definition is_st_error (e : event) : bool :=
  match e with StError _ => true | _ => false end.

(** ** World and state *)

Record world : Type := mkWorld {
  http : request -> outcome response;
  random : nat -> Q
}.

(** [random.random()] returns a value of [0, 1). *)
Definition random_ok (w : world) : Prop :=
  forall n, 0 <= random w n /\ random w n < 1.

Definition key : Type := (pystr * pystr)%type.

Definition key_eqb (a b : key) : bool :=
  str_eqb (fst a) (fst b) && str_eqb (snd a) (snd b).

Record state : Type := mkState {
  cache : list (key * bool);
  trace : list event;
  draws : nat
}.

Definition init_state : state := mkState [] [] 0.

(** ** The monad of computations *)

Definition M (A : Type) : Type := world -> state -> outcome A * state.

Definition ret {A} (a : A) : M A := fun _ st => (Ok a, st).

Definition bind {A B} (m : M A) (k : A -> M B) : M B :=
  fun w st =>
    match m w st with
    | (Ok a, st') => k a w st'
    | (Raise e, st') => (Raise e, st')
    end.

Definition raise {A} (e : exn) : M A := fun _ st => (Raise e, st).

(** [try: m  except Exception as e: h e]. *)
Definition try_except {A} (m : M A) (h : exn -> M A) : M A :=
  fun w st =>
    match m w st with
    | (Ok a, st') => (Ok a, st')
    | (Raise e, st') => h e w st'
    end.

Declare Scope py_scope.
Delimit Scope py_scope with py.
Notation "x <- m ;; k" := (bind m (fun x => k))
  (at level 61, m at next level, right associativity) : py_scope.
Notation "m ;; k" := (bind m (fun _ => k))
  (at level 61, right associativity) : py_scope.
Local Open Scope py_scope.

Definition emit (e : event) : M unit :=
  fun _ st => (Ok tt, mkState (cache st) (trace st ++ [e]) (draws st)).

(** *** Floats

    A Python [float] is an IEEE 754 binary64 number, and every operation on
    floats gives the exact result rounded to the nearest number with a
    significand of 53 bits, a tie going to the even significand. A float is
    modelled by its value, a rational number. The range of the exponent is
    left out: the values met here lie between 2^-53 and 4, far from
    overflow and from the subnormal numbers. *)

(** The integer nearest to [q], the even one of the two when [q] lies half
    way. *)
Definition round_half_even (q : Q) : Z :=
  let n := Qfloor q in
  match Qcompare (q - inject_Z n) (1 # 2) with
  | Lt => n
  | Gt => (n + 1)%Z
  | Eq => if Z.even n then n else (n + 1)%Z
  end.

(** The binary exponent of [q <> 0]: [2 ^ e <= |q| < 2 ^ (e + 1)]. *)
Definition exponent (q : Q) : Z :=
  let e := (Z.log2 (Z.abs (Qnum q)) - Z.log2 (Zpos (Qden q)))%Z in
  if Qle_bool (2 ^ e) (Qabs q) then e else (e - 1)%Z.

(** [q] rounded to binary64: to a multiple of the unit in the last place
    of its binade. *)
Definition binary64 (q : Q) : Q :=
  if Qeq_bool q 0 then 0
  else
    let ulp := 2 ^ (exponent q - 52) in
    inject_Z (round_half_even (q / ulp)) * ulp.

(** [random.uniform(a, b)] is [a + (b - a) * self.random()]. Line 102
    passes the integers 1 and 3: [b - a] is an exact integer, the product
    with the float [random()] and the sum are float operations. *)
Definition uniform (a b u : Q) : Q := binary64 (a + binary64 ((b - a) * u)).
Arguments uniform : simpl never.

Definition random_uniform (a b : Q) : M Q :=
  fun w st =>
    (Ok (uniform a b (random w (draws st))),
     mkState (cache st) (trace st) (S (draws st))).

Definition sleep (d : Q) : M unit := emit (Sleep d).

Definition st_error (e : exn) : M unit := emit (StError e).

(** An HTTP request: recorded when it is sent, then answered by the world. *)
Definition send (r : request) : M response :=
  fun w st =>
    (http w r, mkState (cache st) (trace st ++ [Http r]) (draws st)).

Definition requests_get (u : pystr) : M response := send (mkRequest GET u []).

Definition session_post (u : pystr) (d : list (pystr * pystr)) : M response :=
  send (mkRequest POST u d).

(** [tag[key]] on the result of [find]: [None[key]] is a [TypeError], a
    missing attribute a [KeyError]. *)
Definition getitem (t : option node) (k : pystr) : M pystr :=
  match t with
  | None => raise TypeError
  | Some (NavigableString _) => raise TypeError
  | Some (Tag _ _ ats _) =>
      match lookup k ats with
      | Some v => ret v
      | None => raise (KeyError k)
      end
  end.

(** [any(f x for x in l)] : evaluated left to right, stops at the first
    true value, and an exception of [f] leaves the loop. *)
Fixpoint any_M {A} (f : A -> M bool) (l : list A) : M bool :=
  match l with
  | [] => ret false
  | x :: l' => b <- f x ;; if b then ret true else any_M f l'
  end.

(** ** The Python runtime that is not modelled

    Four library functions are kept abstract: Unicode lower-casing and
    case-insensitive comparison outside ASCII, the part of the [re] syntax
    outside the fragment parsed below, and BeautifulSoup's HTML parser. The
    room the interpreter's stack leaves to the parser of [re] is a number
    of the runtime as well. *)

Class Runtime : Type := {
  (** [str.lower] on a string with a non-ASCII character *)
  unicode_lower : pystr -> pystr;
  (** whether two characters, not both ASCII, match under [re.I] *)
  unicode_ci_eq : N -> N -> bool;
  (** [re.search(pattern, text, re.I)] for a pattern outside the fragment:
      an exception, or whether a match was found *)
  re_other : pystr -> pystr -> outcome bool;
  (** how many groups of a pattern can be open at once: the parser of [re]
      calls itself on every group, and one group more exceeds the
      recursion limit of the interpreter (some 490 groups under the default
      limit of 1000, fewer the deeper the call stack already is) *)
  max_nesting : nat;
  (** [BeautifulSoup(text, 'html.parser')] *)
  html_parser : pystr -> list node
}.

(** ** Regular expressions: the fragment of literals, dots, groups and
    alternation *)

Inductive regex : Type :=
| Eps
| Chr (c : N)
| AnyChar
| Cat (a b : regex)
| Alt (a b : regex).

Inductive token : Type :=
| TChr (c : N)
| TDot
| TBar
| TOpen
| TClose.

(** The special characters of [re]: . ^ $ * + ? { } [ ] \ | ( ) *)
Definition re_special : pystr := py ".^$*+?{}[]\|()".

Definition is_special (c : N) : bool := existsb (N.eqb c) re_special.

Definition chr (s : string) : N :=
  match py s with c :: _ => c | [] => 0%N end.

(** The tokens of a pattern, or [None] when the pattern uses syntax outside
    the fragment (anchors, repetition, classes, escapes of letters). *)
Fixpoint tokenize (p : pystr) : option (list token) :=
  match p with
  | [] => Some []
  | c :: p' =>
      if N.eqb c (chr "\") then
        match p' with
        | d :: p'' =>
            if is_special d then option_map (cons (TChr d)) (tokenize p'')
            else None
        | [] => None
        end
      else if N.eqb c (chr ".") then option_map (cons TDot) (tokenize p')
      else if N.eqb c (chr "|") then option_map (cons TBar) (tokenize p')
      else if N.eqb c (chr "(") then option_map (cons TOpen) (tokenize p')
      else if N.eqb c (chr ")") then option_map (cons TClose) (tokenize p')
      else if is_special c then None
      else option_map (cons (TChr c)) (tokenize p')
  end.

(** A group being parsed: the alternatives closed so far and the sequence
    being read. *)
Definition frame : Type := (option regex * regex)%type.

Definition close_frame (f : frame) : regex :=
  match fst f with
  | None => snd f
  | Some a => Alt a (snd f)
  end.

Section WithRuntime.

Context {R : Runtime}.

(** Reads the tokens left to right with a stack of open groups, the
    innermost first; the last frame is the whole pattern. Opening a group
    when [max_nesting] groups are open is a [RecursionError]. *)
Fixpoint parse_tokens (ts : list token) (cur : frame) (stack : list frame)
  : outcome regex :=
  match ts with
  | [] =>
      match stack with
      | [] => Ok (close_frame cur)
      | _ :: _ => Raise (ReError MissingParenthesis)
      end
  | TChr c :: ts' => parse_tokens ts' (fst cur, Cat (snd cur) (Chr c)) stack
  | TDot :: ts' => parse_tokens ts' (fst cur, Cat (snd cur) AnyChar) stack
  | TBar :: ts' => parse_tokens ts' (Some (close_frame cur), Eps) stack
  | TOpen :: ts' =>
      if Nat.ltb (length stack) max_nesting
      then parse_tokens ts' (None, Eps) (cur :: stack)
      else Raise RecursionError
  | TClose :: ts' =>
      match stack with
      | [] => Raise (ReError UnbalancedParenthesis)
      | parent :: stack' =>
          parse_tokens ts' (fst parent, Cat (snd parent) (close_frame cur)) stack'
      end
  end.

(** [str.lower]. *)
Definition lower (s : pystr) : pystr :=
  if forallb is_ascii s then map ascii_lower s else unicode_lower s.

(** Equality of a pattern character and a text character under [re.I]. *)
Definition ci_eq (a b : N) : bool :=
  if is_ascii a && is_ascii b then N.eqb (ascii_lower a) (ascii_lower b)
  else unicode_ci_eq a b.

(** What is left of [s] after each way [r] matches a prefix of it. *)
Fixpoint matches (r : regex) (s : pystr) : list pystr :=
  match r with
  | Eps => [s]
  | Chr c =>
      match s with
      | t :: s' => if ci_eq c t then [s'] else []
      | [] => []
      end
  | AnyChar =>
      match s with
      | t :: s' => if N.eqb t 10 then [] else [s']
      | [] => []
      end
  | Cat a b => flat_map (matches b) (matches a s)
  | Alt a b => matches a s ++ matches b s
  end.

Definition matches_at (r : regex) (s : pystr) : bool :=
  match matches r s with [] => false | _ :: _ => true end.

(** Whether [r] matches somewhere in [s]. *)
Fixpoint search (r : regex) (s : pystr) : bool :=
  matches_at r s
  || match s with
     | [] => false
     | _ :: s' => search r s'
     end.

(** [re.search(pattern, text, re.I)], as a truth value. *)
Definition re_search (pattern text : pystr) : M bool :=
  match tokenize pattern with
  | Some ts =>
      match parse_tokens ts (None, Eps) [] with
      | Ok r => ret (search r text)
      | Raise e => raise e
      end
  | None =>
      match re_other pattern text with
      | Ok b => ret b
      | Raise e => raise e
      end
  end.

(** ** The six adapters (Transcript.py, lines 120-157) *)

Definition ugc_india_url : pystr := py "https://www.ugc.ac.in/recog_College.aspx".
Definition hec_pakistan_url : pystr :=
  py "https://www.hec.gov.pk/english/universities/Pages/Recognized-Universities.aspx".
Definition moe_saudi_url : pystr :=
  py "https://www.moe.gov.sa/en/education/highereducation/Pages/Government-Universities.aspx".
Definition anabin_germany_url : pystr :=
  py "https://anabin.kmk.org/no_cache/filter/institutionen.html?search=1&name=".
Definition nuc_nigeria_url : pystr := py "https://www.nuc.edu.ng/nigerian-universities/".
Definition ugc_bangladesh_url : pystr :=
  py "http://www.ugc.gov.bd/en/home/privateuniversity/2".

Definition check_ugc_india (institution : pystr) : M bool :=
  response <- requests_get ugc_india_url ;;
  let soup := html_parser (text response) in
  viewstate <- getitem (find soup (py "input") [(py "id", py "__VIEWSTATE")])
                 (py "value") ;;
  eventval <- getitem (find soup (py "input") [(py "id", py "__EVENTVALIDATION")])
                (py "value") ;;
  let data := [ (py "__VIEWSTATE", viewstate);
                (py "__EVENTVALIDATION", eventval);
                (py "ctl00$ContentPlaceHolder1$txtCollegeName", institution);
                (py "ctl00$ContentPlaceHolder1$btnSearch", py "Search") ] in
  response <- session_post ugc_india_url data ;;
  ret (negb (contains (py "No College Found") (text response))).

Definition check_hec_pakistan (institution : pystr) : M bool :=
  response <- requests_get hec_pakistan_url ;;
  let soup := html_parser (text response) in
  any_M (fun div => re_search institution (get_text div))
        (select_class soup (py "div") (py "university-name")).

Definition check_moe_saudi (institution : pystr) : M bool :=
  response <- requests_get moe_saudi_url ;;
  ret (contains (lower institution) (lower (text response))).

Definition check_anabin_germany (institution : pystr) : M bool :=
  response <- requests_get (anabin_germany_url ++ institution) ;;
  ret (negb (contains (py "Keine Treffer gefunden") (text response))).

Definition check_nuc_nigeria (institution : pystr) : M bool :=
  response <- requests_get nuc_nigeria_url ;;
  ret (contains (lower institution) (lower (text response))).

Definition check_ugc_bangladesh (institution : pystr) : M bool :=
  response <- requests_get ugc_bangladesh_url ;;
  let soup := html_parser (text response) in
  ret (existsb (fun li => contains (lower institution) (lower (get_text li)))
         (select_descendant soup (py "div") (py "content-body") (py "li"))).

(** ** The checker (Transcript.py, lines 99-118) *)

Definition COUNTRIES : list pystr :=
  [py "India"; py "Pakistan"; py "Saudi Arabia"; py "Germany"; py "Nigeria";
   py "Bangladesh"].

(** The chain of comparisons of lines 103-115. *)
Definition dispatch (institution country : pystr) : M bool :=
  if str_eqb country (py "India") then check_ugc_india institution
  else if str_eqb country (py "Pakistan") then check_hec_pakistan institution
  else if str_eqb country (py "Saudi Arabia") then check_moe_saudi institution
  else if str_eqb country (py "Germany") then check_anabin_germany institution
  else if str_eqb country (py "Nigeria") then check_nuc_nigeria institution
  else if str_eqb country (py "Bangladesh") then check_ugc_bangladesh institution
  else ret false.

(** The rate limiting of line 102. *)
Definition rate_limit : M unit :=
  d <- random_uniform 1 3 ;; sleep d.

(** The body of [check_accreditation], below the decorator. *)
Definition check_accreditation_body (institution country : pystr) : M bool :=
  try_except
    (rate_limit ;; dispatch institution country)
    (fun e => st_error e ;; ret false).

End WithRuntime.

(** ** The result cache

    The decorator of line 99, [functools.lru_cache(maxsize=1000)], belongs
    to the Python standard library and its code is not part of the
    repository. The cache it puts in front of [check_accreditation] is
    modelled from section 4.4 of the specification. The entries are kept
    most recently used first. *)

(** The [maxsize] of line 99. *)
Definition maxsize : nat := 1000.

(** Modelled from the spec: the [get] of the Result Cache, whose "key
    equality is exact on (InstitutionName, Country)". *)
Fixpoint cache_get (k : key) (c : list (key * bool)) : option bool :=
  match c with
  | [] => None
  | (k', v) :: c' => if key_eqb k k' then Some v else cache_get k c'
  end.

(** Modelled from the spec: the entries of the Result Cache other than
    that of [k]. *)
Definition cache_remove (k : key) (c : list (key * bool)) : list (key * bool) :=
  filter (fun e => negb (key_eqb k (fst e))) c.

(** Modelled from the spec: the "recency policy" of the Result Cache; a hit
    makes the entry the most recent one. *)
Definition cache_touch (k : key) (v : bool) (c : list (key * bool))
  : list (key * bool) :=
  (k, v) :: cache_remove k c.

(** Modelled from the spec: the [put] of the Result Cache, "capacity-bounded
    (1000 entries)", which "on overflow evicts using a recency policy
    (least-recently-used)". A new entry goes in front; at capacity the last
    entry, the least recently used one, leaves. *)
Definition cache_put (cap : nat) (k : key) (v : bool) (c : list (key * bool))
  : list (key * bool) :=
  match cache_get k c with
  | Some _ => c
  | None =>
      if Nat.ltb (length c) cap then (k, v) :: c
      else (k, v) :: removelast c
  end.

(** Modelled from the spec: the decorator [lru_cache], not part of the
    repository, as the Verification Facade of section 4.5: "check Cache; on
    hit, return immediately"; on a miss run the function and "store result
    in Cache". A result is stored when the function returns, not when it
    raises. *)
Definition lru_cache (cap : nat) (f : pystr -> pystr -> M bool)
  (institution country : pystr) : M bool :=
  fun w st =>
    let k := (institution, country) in
    match cache_get k (cache st) with
    | Some v =>
        (Ok v, mkState (cache_touch k v (cache st)) (trace st) (draws st))
    | None =>
        match f institution country w st with
        | (Ok v, st') =>
            (Ok v, mkState (cache_put cap k v (cache st')) (trace st') (draws st'))
        | (Raise e, st') => (Raise e, st')
        end
    end.

(** [check_accreditation], as [main] calls it. *)
Definition check_accreditation {R : Runtime} : pystr -> pystr -> M bool :=
  lru_cache maxsize check_accreditation_body.

(** The label [main] shows for the result (line 193). *)
Definition accreditation_status (accredited : bool) : pystr :=
  if accredited then 9989%N :: py " Recognized"
  else 10060%N :: py " Not Recognized".

(** A sequence of calls, each made in the world of its time. *)
Record call : Type := mkCall {
  call_institution : pystr;
  call_country : pystr;
  call_world : world
}.

Definition call_key (c : call) : key := (call_institution c, call_country c).

Definition run_call {R : Runtime} (st : state) (c : call) : state :=
  snd (check_accreditation (call_institution c) (call_country c) (call_world c) st).

Definition run_calls {R : Runtime} (cs : list call) (st : state) : state :=
  fold_left run_call cs st.

(** The events a run added to the trace. *)
Definition added (st st' : state) : list event :=
  skipn (length (trace st)) (trace st').

Definition http_calls (evs : list event) : nat := length (filter is_http evs).

(** ** Document processing (Transcript.py, lines 27-42) *)

(** The file of [st.file_uploader]: its MIME type and its bytes. *)
Record uploaded_file : Type := mkUpload {
  file_type : pystr;
  file_bytes : list N
}.

(** The document libraries, which are not modelled: what they make of the
    bytes of a file, or the exception they raise. *)
Class Documents : Type := {
  image : Type;
  (** [pdfplumber.open(file).pages], each page with what its
      [extract_text()] gives: an exception, [None] or a string *)
  pdf_pages : list N -> outcome (list (outcome (option pystr)));
  (** the [text] of each of [Document(file).paragraphs] *)
  docx_paragraphs : list N -> outcome (list pystr);
  (** [Image.open(io.BytesIO(bytes))] *)
  image_open : list N -> outcome image;
  (** [pytesseract.image_to_string(img, lang=lang)] *)
  image_to_string : image -> pystr -> outcome pystr
}.

(** A library call inside a computation. *)
Definition lift {A} (o : outcome A) : M A := fun _ st => (o, st).

(** [[f(x) for x in l]] : the values in order, or the first exception. *)
Fixpoint collect {A} (l : list (outcome A)) : outcome (list A) :=
  match l with
  | [] => Ok []
  | Raise e :: _ => Raise e
  | Ok a :: l' =>
      match collect l' with
      | Ok r => Ok (a :: r)
      | Raise e => Raise e
      end
  end.

(** The strings of a list put one after the other with [sep] in between. *)
Fixpoint join (sep : pystr) (l : list pystr) : pystr :=
  match l with
  | [] => []
  | [x] => x
  | x :: l' => x ++ sep ++ join sep l'
  end.

(** The strings of a list of values, when none of them is [None]. *)
Fixpoint all_strings (items : list (option pystr)) : option (list pystr) :=
  match items with
  | [] => Some []
  | None :: _ => None
  | Some x :: items' => option_map (cons x) (all_strings items')
  end.

(** [sep.join(items)] : a [TypeError] when an item is [None]. *)
Definition str_join (sep : pystr) (items : list (option pystr)) : outcome pystr :=
  match all_strings items with
  | Some l => Ok (join sep l)
  | None => Raise TypeError
  end.

Definition pdf_type : pystr := py "application/pdf".

Definition docx_type : pystr :=
  py "application/vnd.openxmlformats-officedocument.wordprocessingml.document".

Section WithDocuments.

Context {D : Documents}.

Definition extract_text (uploaded : uploaded_file) (country : pystr)
  : M (option pystr) :=
  try_except
    (if str_eqb (file_type uploaded) pdf_type then
       pages <- lift (pdf_pages (file_bytes uploaded)) ;;
       texts <- lift (collect pages) ;;
       s <- lift (str_join (py " ") texts) ;;
       ret (Some s)
     else if str_eqb (file_type uploaded) docx_type then
       paragraphs <- lift (docx_paragraphs (file_bytes uploaded)) ;;
       ret (Some (join (py " ") paragraphs))
     else if startswith (py "image") (file_type uploaded) then
       img <- lift (image_open (file_bytes uploaded)) ;;
       let lang := if str_eqb country (py "Saudi Arabia") then py "ara"
                   else py "eng" in
       s <- lift (image_to_string img lang) ;;
       ret (Some s)
     else ret None)
    (fun e => st_error e ;; ret None).

End WithDocuments.

(** ** GPA conversion (Transcript.py, lines 85-94)

    Python's [float] is the binary64 format of the primitive floats. *)

Definition conversion_rules : list (pystr * (float -> float)) :=
  [ (py "India", fun x => ((x / 10) * 4)%float);
    (py "Pakistan", fun x => ((x / 100) * 4)%float);
    (py "Saudi Arabia", fun x => ((x / 5) * 4)%float);
    (py "Germany", fun x => (4 - ((x - 1) * 1))%float);
    (py "Nigeria", fun x => ((x / 5) * 4)%float);
    (py "Bangladesh", fun x => ((x / 4) * 4)%float) ].

(** [d.get(k, default)]. *)
Fixpoint dict_get {V} (k : pystr) (d : list (pystr * V)) (default : V) : V :=
  match d with
  | [] => default
  | (k', v) :: d' => if str_eqb k k' then v else dict_get k d' default
  end.

(** [min(a, b)] : the first argument unless the second is smaller. *)
Definition py_min (a b : float) : float :=
  if (b <? a)%float then b else a.

Definition convert_gpa (original_gpa : float) (country : pystr) : float :=
  py_min 4 (dict_get country conversion_rules (fun x => x) original_gpa).

(** ** DeepSeek (Transcript.py, lines 47-80) *)

#[warnings="-register-all"]
Inductive json : Type :=
| JNull
| JBool (b : bool)
| JInt (n : Z)
| JFloat (x : float)
| JStr (s : pystr)
| JList (l : list json)
| JDict (d : list (pystr * json)).

(** What surrounds the call: the secrets of the application and the API. *)
Record service : Type := mkService {
  (** [st.secrets[name]], as a string *)
  secrets : pystr -> outcome pystr;
  (** [requests.post(url, headers=headers, json=payload, timeout=30)] *)
  post_json : pystr -> list (pystr * pystr) -> json -> Z -> outcome response;
  (** [json.loads(response.json()['choices'][0]['message']['content'])] on
      the body of a response: the object, or the exception raised on the
      way *)
  message_content : pystr -> outcome json
}.

Definition DEEPSEEK_API_URL : pystr := py "https://api.deepseek.com/v1/chat/completions".

(** A newline, and a string between double quotes. *)
Definition nl : pystr := [10%N].

Definition quoted (s : string) : pystr := [34%N] ++ py s ++ [34%N].

(** The [system_prompt] of lines 53-62. *)
Definition system_prompt : pystr :=
  py "Extract from transcript as JSON:" ++ nl
  ++ py "{" ++ nl
  ++ py "  " ++ quoted "institution_name" ++ py ": " ++ quoted "Official name" ++ py "," ++ nl
  ++ py "  " ++ quoted "original_gpa" ++ py ": number," ++ nl
  ++ py "  " ++ quoted "gpa_scale" ++ py ": " ++ quoted "Original scale" ++ py "," ++ nl
  ++ py "  " ++ quoted "degree_name" ++ py ": " ++ quoted "Degree title" ++ py "," ++ nl
  ++ py "  " ++ quoted "courses" ++ py ": [{" ++ quoted "code" ++ py ": str, "
  ++ quoted "name" ++ py ": str, " ++ quoted "credits" ++ py ": number, "
  ++ quoted "grade" ++ py ": str}]," ++ nl
  ++ py "  " ++ quoted "us_degree_equivalent" ++ py ": " ++ quoted "US equivalent" ++ nl
  ++ py "}" ++ nl
  ++ py "Country: {country}".

(** *** [str.format] with keyword arguments

    The template is read from left to right as CPython does. The fragment
    covers literal text, doubled braces and fields whose name is a plain
    keyword; what lies outside it (a syntax error, a conversion, an index or
    attribute, a number as name, a format specification to apply) is left to
    an uninterpreted function. A field is looked up once it has been read up
    to its closing brace, format specification included, and before that
    specification is used: a missing keyword is a [KeyError]. *)

Inductive format_mode : Type :=
| InText
| AfterOpen
| AfterClose
| InName (name : pystr)
| InSpec (name : pystr) (depth : nat) (spec : pystr).

Definition is_digit (c : N) : bool := N.leb 48 c && N.leb c 57.

(** A field name that is a keyword: not empty, ASCII, not a number. *)
Definition is_keyword (name : pystr) : bool :=
  match name with
  | [] => false
  | _ :: _ => forallb is_ascii name && negb (forallb is_digit name)
  end.

(** The end of a field: [Some (Ok v)] is the text to insert, [None] means
    outside the fragment. *)
Definition resolve (kwargs : list (pystr * pystr)) (name spec : pystr)
  : option (outcome pystr) :=
  if is_keyword name then
    match lookup name kwargs with
    | None => Some (Raise (KeyError name))
    | Some v =>
        match spec with
        | [] => Some (Ok v)
        | _ :: _ => None
        end
    end
  else None.

Fixpoint format_fragment (kwargs : list (pystr * pystr)) (mode : format_mode)
  (out : pystr) (template : pystr) : option (outcome pystr) :=
  match template with
  | [] =>
      match mode with
      | InText => Some (Ok out)
      | _ => None
      end
  | c :: rest =>
      match mode with
      | InText =>
          if N.eqb c (chr "{") then format_fragment kwargs AfterOpen out rest
          else if N.eqb c (chr "}") then format_fragment kwargs AfterClose out rest
          else format_fragment kwargs InText (out ++ [c]) rest
      | AfterOpen =>
          if N.eqb c (chr "{") then format_fragment kwargs InText (out ++ [c]) rest
          else if N.eqb c (chr "}") then
            match resolve kwargs [] [] with
            | Some (Ok v) => format_fragment kwargs InText (out ++ v) rest
            | other => other
            end
          else if N.eqb c (chr ":") then format_fragment kwargs (InSpec [] 1 []) out rest
          else if N.eqb c (chr "!") || N.eqb c (chr "[") || N.eqb c (chr ".") then None
          else format_fragment kwargs (InName [c]) out rest
      | AfterClose =>
          if N.eqb c (chr "}") then format_fragment kwargs InText (out ++ [c]) rest
          else None
      | InName name =>
          if N.eqb c (chr "}") then
            match resolve kwargs name [] with
            | Some (Ok v) => format_fragment kwargs InText (out ++ v) rest
            | other => other
            end
          else if N.eqb c (chr ":") then format_fragment kwargs (InSpec name 1 []) out rest
          else if N.eqb c (chr "{") || N.eqb c (chr "!") || N.eqb c (chr "[")
                  || N.eqb c (chr ".") then None
          else format_fragment kwargs (InName (name ++ [c])) out rest
      | InSpec name depth spec =>
          if N.eqb c (chr "{") then
            format_fragment kwargs (InSpec name (S depth) (spec ++ [c])) out rest
          else if N.eqb c (chr "}") then
            match depth with
            | 0%nat | 1%nat =>
                match resolve kwargs name spec with
                | Some (Ok v) => format_fragment kwargs InText (out ++ v) rest
                | other => other
                end
            | S depth' => format_fragment kwargs (InSpec name depth' (spec ++ [c])) out rest
            end
          else format_fragment kwargs (InSpec name depth (spec ++ [c])) out rest
      end
  end.

(** [template.format(k=v, ...)], given the part of [str.format] that is not
    modelled. *)
Definition str_format (format_other : pystr -> list (pystr * pystr) -> outcome pystr)
  (template : pystr) (kwargs : list (pystr * pystr)) : M pystr :=
  match format_fragment kwargs InText [] template with
  | Some r => lift r
  | None => lift (format_other template kwargs)
  end.

(** [response.text], where [text] names something else. *)
Definition response_text (r : response) : pystr := text r.

Section WithService.

Variable format_other : pystr -> list (pystr * pystr) -> outcome pystr.
Variable api : service.

(** [response.raise_for_status()] : an [HTTPError], which is a
    [RequestException], for the statuses 400 to 599. *)
Definition raise_for_status (r : response) : M unit :=
  if Z.leb 400 (status_code r) && Z.ltb (status_code r) 600
  then raise (RequestException (py "HTTPError"))
  else ret tt.

(** The POST of line 75: recorded in the trace, answered by the service. *)
Definition requests_post (u : pystr) (headers : list (pystr * pystr))
  (payload : json) (timeout : Z) : M response :=
  emit (Http (mkRequest POST u [])) ;;
  lift (post_json api u headers payload timeout).

#[warnings="-abstract-large-number,-inexact-float"]
Definition analyze_with_deepseek (text country : pystr) : M (option json) :=
  api_key <- lift (secrets api (py "DEEPSEEK_API_KEY")) ;;
  let headers := [ (py "Authorization", py "Bearer " ++ api_key);
                   (py "Content-Type", py "application/json") ] in
  content <- str_format format_other system_prompt [(py "country", country)] ;;
  let payload :=
    JDict [ (py "model", JStr (py "deepseek-reasoner"));
            (py "messages",
             JList [ JDict [ (py "role", JStr (py "system"));
                             (py "content", JStr content) ];
                     JDict [ (py "role", JStr (py "user"));
                             (py "content", JStr (firstn 15000 text)) ] ]);
            (py "temperature", JFloat 0.1);
            (py "response_format", JDict [ (py "type", JStr (py "json_object")) ]) ] in
  try_except
    (response <- requests_post DEEPSEEK_API_URL headers payload 30 ;;
     raise_for_status response ;;
     analysis <- lift (message_content api (response_text response)) ;;
     ret (Some analysis))
    (fun e => st_error e ;; ret None).

End WithService.

(** ** A runtime and worlds for the examples

    ASCII only: no Unicode case tables, no [re] syntax beyond the fragment,
    and a parser that knows the sample pages below. *)

Definition india_form : pystr :=
  py "<input id=__VIEWSTATE value=vs><input id=__EVENTVALIDATION value=ev>".

Definition india_form_soup : list node :=
  [ Tag (py "input") [] [(py "id", py "__VIEWSTATE"); (py "value", py "vs")] [];
    Tag (py "input") [] [(py "id", py "__EVENTVALIDATION"); (py "value", py "ev")] [] ].

Definition india_broken_form : pystr :=
  py "<input id=__EVENTVALIDATION value=ev>".

Definition india_broken_soup : list node :=
  [ Tag (py "input") [] [(py "id", py "__EVENTVALIDATION"); (py "value", py "ev")] [] ].

Definition hec_page (name : string) : pystr :=
  py "<div class=university-name>" ++ py name ++ py "</div>".

Definition hec_soup (name : string) : list node :=
  [ Tag (py "div") [py "university-name"] [(py "class", py "university-name")]
      [NavigableString (py name)] ].

Definition hec_empty_page : pystr := py "<p>Page under maintenance</p>".

Definition hec_empty_soup : list node :=
  [ Tag (py "p") [] [] [NavigableString (py "Page under maintenance")] ].

Definition sample_parser (t : pystr) : list node :=
  if str_eqb t india_form then india_form_soup
  else if str_eqb t india_broken_form then india_broken_soup
  else if str_eqb t (hec_page "abc") then hec_soup "abc"
  else if str_eqb t (hec_page "University (Lahore)") then hec_soup "University (Lahore)"
  else if str_eqb t hec_empty_page then hec_empty_soup
  else [].

Definition sample_runtime : Runtime := {|
  unicode_lower := fun s => s;
  unicode_ci_eq := N.eqb;
  re_other := fun _ _ => Raise (ReError OtherReError);
  max_nesting := 400;
  html_parser := sample_parser
|}.

Definition half : nat -> Q := fun _ => 1 # 2.

(** Every registry is unreachable. *)
Definition outage : world := mkWorld (fun _ => Raise ConnectionError) half.

(** Every request is answered with the same page. *)
Definition serving (status : Z) (page : pystr) : world :=
  mkWorld (fun _ => Ok (mkResponse status page)) half.

(** The India registry: the form on GET, a result page on POST. *)
Definition india_world (form result : pystr) : world :=
  mkWorld (fun r => match method r with
                    | GET => Ok (mkResponse 200 form)
                    | POST => Ok (mkResponse 200 result)
                    end) half.

(** The institution of the scenario of the specification, "Technische
    Universitaet Muenchen" with its two umlauts as code points 228 and 252. *)
Definition tum : pystr :=
  py "Technische Universit" ++ [228%N] ++ py "t M" ++ [252%N] ++ py "nchen".

(** Calls for 1001 institutions, one after the other. *)
Definition numbered_call (n : nat) : call :=
  mkCall [N.of_nat n] (py "Nigeria") outage.

Definition numbered_calls (start len : nat) : list call :=
  map numbered_call (seq start len).

(** ** Notions used in the statements *)

(** Events that are all HTTP requests satisfying [P]. *)
Definition requests_of (evs : list event) (P : request -> Prop) : Prop :=
  Forall (fun e => exists r, e = Http r /\ P r) evs.

(** Running [m] leaves the cache and the random generator alone and adds to
    the trace only HTTP requests that satisfy [P]. *)
Definition sends_only {A} (P : request -> Prop) (m : M A) : Prop :=
  forall w st, exists evs,
    cache (snd (m w st)) = cache st
    /\ draws (snd (m w st)) = draws st
    /\ trace (snd (m w st)) = trace st ++ evs
    /\ requests_of evs P.

(** A computation that leaves the state alone. *)
Definition stateless {A} (m : M A) : Prop := forall w st, snd (m w st) = st.

(** The registry each country is looked up in (section 6 of the
    specification): the URL requested for an institution. *)
Definition registries : list (pystr * (pystr -> pystr)) :=
  [ (py "India", fun _ => ugc_india_url);
    (py "Pakistan", fun _ => hec_pakistan_url);
    (py "Saudi Arabia", fun _ => moe_saudi_url);
    (py "Germany", fun i => anabin_germany_url ++ i);
    (py "Nigeria", fun _ => nuc_nigeria_url);
    (py "Bangladesh", fun _ => ugc_bangladesh_url) ].

(** The state once the rate limiting of a call has slept. *)
Definition after_delay (w : world) (st : state) : state :=
  mkState (cache st)
          (trace st ++ [Sleep (uniform 1 3 (random w (draws st)))])
          (S (draws st)).

(** The state once a result is stored in the cache [c]. *)
Definition stored (k : key) (v : bool) (c : list (key * bool)) (st : state) : state :=
  mkState (cache_put maxsize k v c) (trace st) (draws st).

(** The state once an exception has gone to [st.error]. *)
Definition reported (e : exn) (st : state) : state :=
  mkState (cache st) (trace st ++ [StError e]) (draws st).

(** The state after one request. *)
Definition sent (r : request) (st : state) : state :=
  mkState (cache st) (trace st ++ [Http r]) (draws st).

(** The requests of one lookup: two at most for India, one for each of the
    other five countries, none for any other country. *)
Definition lookup_requests (country : pystr) (n : nat) : Prop :=
  (country = py "India" -> (1 <= n <= 2)%nat)
  /\ (In country COUNTRIES -> country <> py "India" -> n = 1%nat)
  /\ (~ In country COUNTRIES -> n = 0%nat).

(** The keys of a cache, most recently used first. *)
Definition keys (c : list (key * bool)) : list key := map fst c.

Definition without (k : key) (l : list key) : list key :=
  filter (fun k' => negb (key_eqb k k')) l.

(** The keys of a history of calls, latest call first, each key listed where
    it is met first: the keys in the order of their last use. *)
Fixpoint most_recent_first (past : list key) : list key :=
  match past with
  | [] => []
  | k :: older => k :: without k (most_recent_first older)
  end.

(** How many calls ago [k] was last used, in a history given latest call
    first. *)
Fixpoint age (k : key) (past : list key) : option nat :=
  match past with
  | [] => None
  | x :: older => if key_eqb k x then Some 0%nat else option_map S (age k older)
  end.

(** Both keys were used, and the last use of [a] is later than that of [b]. *)
Definition used_after (past : list key) (a b : key) : Prop :=
  exists i j, age a past = Some i /\ age b past = Some j /\ (i < j)%nat.

(** What a call does to the keys of a cache of capacity [cap]. *)
Definition lru_keys (cap : nat) (k : key) (l : list key) : list key :=
  if existsb (key_eqb k) l then k :: without k l
  else if Nat.ltb (length l) cap then k :: l
  else k :: removelast l.

(** The values [random.random()] takes: CPython makes the float of 53
    random bits [k], as [k / 2^53]. *)
Definition random_values : nat := Z.to_nat (2 ^ 53).

Definition random_value (k : Z) : Q := inject_Z k / inject_Z (2 ^ 53).

(** How many of the numbers [0 .. n-1] satisfy [p]. *)
Fixpoint count_below (n : nat) (p : Z -> bool) : Z :=
  match n with
  | O => 0
  | S m => ((if p (Z.of_nat m) then 1 else 0) + count_below m p)%Z
  end.

(** The share of the values of [random.random()] on which [event] holds:
    the probability of [event] when the 53 bits are drawn uniformly. *)
Definition share (event : Q -> bool) : Q :=
  inject_Z (count_below random_values (fun k => event (random_value k)))
  / inject_Z (2 ^ 53).

(** The value of a hardware float. *)
Definition float_value (f : float) : Q :=
  match Prim2SF f with
  | S754_finite s m e => (if s then -1 else 1) * inject_Z (Zpos m) * 2 ^ e
  | _ => 0
  end.

(** [random.random()] and [random.uniform(1, 3)] on hardware floats. *)
Definition random_float (k : Z) : float :=
  (of_uint63 (Uint63.of_Z k) * 0x1p-53)%float.

Definition uniform_float (u : float) : float := (1 + (3 - 1) * u)%float.

(** ** Examples for the document, GPA and DeepSeek functions *)

(** Toy document libraries: every byte of a PDF is a page, the byte 0 a
    page without text; every byte of a Word file is a paragraph; the OCR
    answers with the name of the language it was asked for. *)
Definition sample_documents : Documents := {|
  image := unit;
  pdf_pages := fun b =>
    Ok (map (fun c => Ok (if N.eqb c 0 then None else Some [c])) b);
  docx_paragraphs := fun b => Ok (map (fun c => [c]) b);
  image_open := fun _ => Ok tt;
  image_to_string := fun _ lang => Ok lang
|}.

Definition sample_service : service := {|
  secrets := fun _ => Ok (py "sk-test");
  post_json := fun _ _ _ _ => Ok (mkResponse 200 (py "{}"));
  message_content := fun _ => Ok (JDict [])
|}.

Definition no_format_other : pystr -> list (pystr * pystr) -> outcome pystr :=
  fun _ _ => Raise TypeError.

(** The name of the first field [str.format] finds in [system_prompt]. *)
Definition first_field : pystr := nl ++ py "  " ++ quoted "institution_name".

(** ** Notions used in the further statements *)

(** The number of sleeps in a trace, and the time slept in all. *)
Definition sleeps (evs : list event) : nat := length (filter is_sleep evs).

Fixpoint slept (evs : list event) : Q :=
  match evs with
  | [] => 0
  | Sleep d :: evs' => d + slept evs'
  | _ :: evs' => slept evs'
  end.

(** Two worlds that answer every request with the same body or the same
    exception (the status codes may differ) and draw the same numbers. *)
Definition same_bodies (w w' : world) : Prop :=
  (forall r, match http w r, http w' r with
             | Ok a, Ok b => text a = text b
             | Raise e, Raise e' => e = e'
             | _, _ => False
             end)
  /\ (forall n, random w n = random w' n).

(** An institution name made of ASCII characters none of which is special
    for [re]. *)
Definition plain_name (name : pystr) : bool :=
  forallb (fun c => is_ascii c && negb (is_special c)) name.

(** [name] read as a pattern after [r0]. *)
Definition literal_after (r0 : regex) (name : pystr) : regex :=
  fold_left (fun r c => Cat r (Chr c)) name r0.

(** The number of distinct keys other than [k] in a list of keys. *)
Definition distinct_others (k : key) (l : list key) : nat :=
  length (without k (most_recent_first l)).

(** What [soup.find('input', {'id': id})['value']] gives: the value of the
    hidden field, a [TypeError] when there is no such field, a [KeyError]
    when the field has no value. *)
Definition field_value (soup : list node) (id : pystr) : outcome pystr :=
  match find soup (py "input") [(py "id", id)] with
  | Some (Tag _ _ ats _) =>
      match lookup (py "value") ats with
      | Some v => Ok v
      | None => Raise (KeyError (py "value"))
      end
  | _ => Raise TypeError
  end.

(** The form data of the search of the India adapter. *)
Definition india_search (viewstate eventval institution : pystr)
  : list (pystr * pystr) :=
  [ (py "__VIEWSTATE", viewstate);
    (py "__EVENTVALIDATION", eventval);
    (py "ctl00$ContentPlaceHolder1$txtCollegeName", institution);
    (py "ctl00$ContentPlaceHolder1$btnSearch", py "Search") ].

(** * Properties *)

(** ** Strings *)

Lemma str_eqb_refl (a : pystr) : str_eqb a a = true.
Proof.
  induction a as [|x a IH]; simpl; [reflexivity|].
  now rewrite N.eqb_refl, IH.
Qed.

Lemma str_eqb_eq (a b : pystr) : str_eqb a b = true <-> a = b.
Proof.
  split; [|intros ->; apply str_eqb_refl].
  revert b; induction a as [|x a IH]; intros [|y b]; simpl; try discriminate; auto.
  intros H; apply andb_true_iff in H as [Hx Hab].
  apply N.eqb_eq in Hx; subst; f_equal; auto.
Qed.

Lemma str_eqb_neq (a b : pystr) : str_eqb a b = false <-> a <> b.
Proof.
  rewrite <- str_eqb_eq. destruct (str_eqb a b); split; congruence.
Qed.

Lemma key_eqb_eq (a b : key) : key_eqb a b = true <-> a = b.
Proof.
  destruct a as [a1 a2], b as [b1 b2]; unfold key_eqb; simpl.
  rewrite andb_true_iff, !str_eqb_eq. split; [intros [-> ->]|intros [= -> ->]]; auto.
Qed.

Lemma key_eqb_refl (a : key) : key_eqb a a = true.
Proof. now apply key_eqb_eq. Qed.

Lemma key_eqb_neq (a b : key) : key_eqb a b = false <-> a <> b.
Proof.
  rewrite <- key_eqb_eq. destruct (key_eqb a b); split; congruence.
Qed.

Lemma startswith_spec (p s : pystr) :
  startswith p s = true <-> exists t, s = p ++ t.
Proof.
  revert s; induction p as [|x p IH]; intros s; simpl.
  - split; eauto.
  - destruct s as [|y s].
    + split; [discriminate|intros [t Ht]; discriminate].
    + rewrite andb_true_iff, N.eqb_eq, IH. split.
      * intros [-> [t ->]]; eauto.
      * intros [t [= -> ->]]; eauto.
Qed.

(** [contains] is the substring relation. *)
Lemma contains_spec (needle hay : pystr) :
  contains needle hay = true <-> exists a b, hay = a ++ needle ++ b.
Proof.
  induction hay as [|y hay IH]; simpl.
  - rewrite orb_false_r, startswith_spec. split.
    + intros [t Ht]; exists [], t; exact Ht.
    + intros [a [b H]]. destruct a; [eauto|discriminate].
  - rewrite orb_true_iff, startswith_spec, IH. split.
    + intros [[t Ht]|[a [b Hab]]].
      * exists [], t; exact Ht.
      * exists (y :: a), b; simpl; now rewrite Hab.
    + intros [[|x a] [b H]].
      * left; eauto.
      * right; injection H as -> ->; eauto.
Qed.

Lemma contains_empty (hay : pystr) : contains [] hay = true.
Proof. destruct hay; reflexivity. Qed.

(** ** Floats *)

(** Rounding to the nearest integer goes down or up by at most a half. *)
Lemma round_half_even_spec (q : Q) :
  (round_half_even q = Qfloor q /\ q - inject_Z (Qfloor q) <= 1 # 2)
  \/ (round_half_even q = (Qfloor q + 1)%Z /\ 1 # 2 <= q - inject_Z (Qfloor q)).
Proof.
  unfold round_half_even.
  destruct (Qcompare_spec (q - inject_Z (Qfloor q)) (1 # 2)) as [H|H|H].
  - destruct (Z.even (Qfloor q)); [left|right]; split; try reflexivity; lra.
  - left. split; [reflexivity|lra].
  - right. split; [reflexivity|lra].
Qed.

Lemma round_half_even_close (q : Q) :
  - (1 # 2) <= inject_Z (round_half_even q) - q
  /\ inject_Z (round_half_even q) - q <= 1 # 2.
Proof.
  pose proof (Qfloor_le q) as Hlo. pose proof (Qlt_floor q) as Hhi.
  rewrite inject_Z_plus in Hhi. change (inject_Z 1) with 1 in Hhi.
  destruct (round_half_even_spec q) as [[-> H]|[-> H]];
    [|rewrite inject_Z_plus; change (inject_Z 1) with 1]; split; lra.
Qed.

(** Rounding never crosses an integer. *)
Lemma round_half_even_bounds (a b : Z) (q : Q) :
  inject_Z a <= q -> q <= inject_Z b ->
  (a <= round_half_even q <= b)%Z.
Proof.
  intros Ha Hb.
  pose proof (Qfloor_resp_le _ _ Ha) as Hfa. rewrite Qfloor_Z in Hfa.
  pose proof (Qfloor_resp_le _ _ Hb) as Hfb. rewrite Qfloor_Z in Hfb.
  destruct (round_half_even_spec q) as [[-> H]|[-> H]]; [lia|].
  split; [lia|].
  assert (Hlt : inject_Z (Qfloor q) < inject_Z b) by lra.
  rewrite <- Zlt_Qlt in Hlt. lia.
Qed.

Lemma two_power_pos (e : Z) : 0 < 2 ^ e.
Proof. apply Qpower_0_lt. reflexivity. Qed.

Lemma two_power_succ (e : Z) : 2 ^ (e + 1) == 2 * 2 ^ e.
Proof. rewrite Qpower_plus by discriminate. change (2 ^ 1) with 2. ring. Qed.

Lemma two_power_sub (a b : Z) : 2 ^ (a - b) * 2 ^ b == 2 ^ a.
Proof.
  rewrite <- Qpower_plus by discriminate. now replace (a - b + b)%Z with a by lia.
Qed.

Lemma log2_bracket (n : Z) :
  (0 < n)%Z ->
  2 ^ Z.log2 n <= inject_Z n /\ inject_Z n < 2 * 2 ^ Z.log2 n.
Proof.
  intros Hn. destruct (Z.log2_spec n Hn) as [Hlo Hhi].
  pose proof (Z.log2_nonneg n) as H0.
  rewrite <- two_power_succ.
  change 2 with (inject_Z 2).
  rewrite <- !Zpower_Qpower by lia.
  split; [now rewrite <- Zle_Qle|now rewrite <- Zlt_Qlt].
Qed.

(** [exponent] is the binade of a positive number. *)
Lemma exponent_spec (q : Q) :
  0 < q -> 2 ^ exponent q <= q /\ q < 2 ^ (exponent q + 1).
Proof.
  intros Hq. unfold exponent.
  assert (Hn : (0 < Qnum q)%Z).
  { destruct q as [n d]. unfold Qlt in Hq. simpl in *. lia. }
  rewrite (Z.abs_eq (Qnum q)) by lia.
  rewrite (Qabs_pos q) by lra.
  set (a := Z.log2 (Qnum q)). set (b := Z.log2 (Z.pos (Qden q))).
  destruct (log2_bracket (Qnum q) Hn) as [HA1 HA2]. fold a in HA1, HA2.
  destruct (log2_bracket (Z.pos (Qden q)) eq_refl) as [HB1 HB2]. fold b in HB1, HB2.
  pose proof (two_power_sub a b) as HP.
  pose proof (two_power_pos a) as HpA. pose proof (two_power_pos b) as HpB.
  pose proof (two_power_pos (a - b)) as HpP.
  assert (HqD : q * inject_Z (Z.pos (Qden q)) == inject_Z (Qnum q)).
  { destruct q as [n d]; simpl. rewrite (Qmake_Qdiv n d). field. discriminate. }
  set (N := inject_Z (Qnum q)) in *. set (D := inject_Z (Z.pos (Qden q))) in *.
  set (A := 2 ^ a) in *. set (B := 2 ^ b) in *. set (P := 2 ^ (a - b)) in *.
  assert (Hup : q < 2 * P).
  { apply Qnot_le_lt. intros Hc.
    assert (2 * P * B <= q * D) by nra. lra. }
  assert (Hdown : P < 2 * q).
  { apply Qnot_le_lt. intros Hc.
    assert (2 * (q * D) < P * (2 * B)) by nra. lra. }
  destruct (Qle_bool P q) eqn:Hb.
  - apply Qle_bool_iff in Hb. split; [exact Hb|].
    rewrite two_power_succ. exact Hup.
  - assert (Hlt : q < P).
    { apply Qnot_le_lt. intros Hc. apply Qle_bool_iff in Hc. congruence. }
    replace (a - b - 1 + 1)%Z with (a - b)%Z by lia. fold P.
    split; [|exact Hlt].
    pose proof (two_power_succ (a - b - 1)) as Hs.
    replace (a - b - 1 + 1)%Z with (a - b)%Z in Hs by lia. fold P in Hs.
    lra.
Qed.

Lemma binary64_zero (q : Q) : q == 0 -> binary64 q = 0.
Proof.
  intros H. unfold binary64.
  now rewrite (proj2 (Qeq_bool_iff q 0) H).
Qed.

(** Rounding a positive number: the result is a multiple of the unit in the
    last place, at most half a unit away, and rounding never crosses such a
    multiple. *)
Lemma binary64_pos (q : Q) :
  0 < q ->
  let ulp := 2 ^ (exponent q - 52) in
  let m := round_half_even (q / ulp) in
  binary64 q = inject_Z m * ulp
  /\ - (1 # 2) * ulp <= binary64 q - q
  /\ binary64 q - q <= (1 # 2) * ulp
  /\ (forall a b : Z,
        inject_Z a * ulp <= q -> q <= inject_Z b * ulp -> (a <= m <= b)%Z).
Proof.
  intros Hq ulp m.
  assert (Hulp : 0 < ulp) by apply two_power_pos.
  assert (Hdef : binary64 q = inject_Z m * ulp).
  { unfold binary64. destruct (Qeq_bool q 0) eqn:Hz; [|reflexivity].
    apply Qeq_bool_iff in Hz. lra. }
  assert (Hx : q / ulp * ulp == q) by (field; lra).
  destruct (round_half_even_close (q / ulp)) as [Hlo Hhi]. fold m in Hlo, Hhi.
  rewrite Hdef. set (x := q / ulp) in *. set (r := inject_Z m) in *.
  split; [reflexivity|].
  split; [nra|]. split; [nra|].
  intros a b Ha Hb. apply round_half_even_bounds.
  - apply Qle_shift_div_l; assumption.
  - apply Qle_shift_div_r; assumption.
Qed.

Lemma exponent_lt (q : Q) (n : Z) : 0 < q -> q < 2 ^ n -> (exponent q < n)%Z.
Proof.
  intros Hq Hn. destruct (exponent_spec q Hq) as [Hlo _].
  apply (Qpower_lt_compat_l_inv 2); [lra|reflexivity].
Qed.

Lemma exponent_ge (q : Q) (n : Z) : 2 ^ n <= q -> (n <= exponent q)%Z.
Proof.
  intros Hn. pose proof (two_power_pos n) as Hp.
  destruct (exponent_spec q) as [_ Hhi]; [lra|].
  assert (H : (n < exponent q + 1)%Z)
    by (apply (Qpower_lt_compat_l_inv 2); [lra|reflexivity]).
  lia.
Qed.

(** Rounding a value of [0, 2). *)
Lemma binary64_below_2 (q : Q) :
  0 <= q -> q < 2 ->
  0 <= binary64 q /\ binary64 q <= 2
  /\ - (1 # 2 ^ 53) <= binary64 q - q /\ binary64 q - q <= 1 # 2 ^ 53.
Proof.
  intros H0 H2.
  destruct (Qlt_le_dec 0 q) as [Hq|Hq].
  - destruct (binary64_pos q Hq) as (Hdef & Hlo & Hhi & Hgrid).
    set (e := exponent q) in *.
    assert (He : (e < 1)%Z) by (apply exponent_lt; [exact Hq|exact H2]).
    assert (Hulp : 2 ^ (e - 52) <= 1 # 2 ^ 52).
    { change (1 # 2 ^ 52) with (2 ^ (-52)).
      apply Qpower_le_compat_l; [lia|lra]. }
    pose proof (two_power_pos (e - 52)) as Hp.
    destruct (exponent_spec q Hq) as [Hle _]. fold e in Hle.
    pose proof (two_power_sub e 52) as Hs.
    change (2 ^ 52) with 4503599627370496 in Hs.
    set (ulp := 2 ^ (e - 52)) in *.
    assert (Hm : (0 <= round_half_even (q / ulp) <= 2 ^ 53)%Z).
    { apply Hgrid.
      - change (inject_Z 0) with 0. lra.
      - change (inject_Z (2 ^ 53)) with 9007199254740992.
        destruct (exponent_spec q Hq) as [_ Hlt]. fold e in Hlt.
        rewrite two_power_succ, <- Hs in Hlt. lra. }
    destruct Hm as [Hm0 Hm1].
    rewrite Zle_Qle in Hm0, Hm1.
    change (inject_Z 0) with 0 in Hm0.
    change (inject_Z (2 ^ 53)) with 9007199254740992 in Hm1.
    rewrite Hdef in *. set (r := inject_Z (round_half_even (q / ulp))) in *.
    change (1 # 2 ^ 53) with (1 # 9007199254740992).
    change (1 # 2 ^ 52) with (1 # 4503599627370496) in Hulp.
    repeat split; nra.
  - assert (Hz : q == 0) by lra.
    rewrite (binary64_zero q Hz).
    change (1 # 2 ^ 53) with (1 # 9007199254740992). repeat split; lra.
Qed.

(** Rounding a value of [1, 3]. *)
Lemma binary64_1_3 (x : Q) :
  1 <= x -> x <= 3 ->
  1 <= binary64 x /\ binary64 x <= 3
  /\ - (1 # 2 ^ 52) <= binary64 x - x /\ binary64 x - x <= 1 # 2 ^ 52.
Proof.
  intros H1 H3.
  assert (Hx : 0 < x) by lra.
  destruct (binary64_pos x Hx) as (Hdef & Hlo & Hhi & Hgrid).
  set (e := exponent x) in *.
  assert (He0 : (0 <= e)%Z) by (apply exponent_ge; change (2 ^ 0) with 1; exact H1).
  assert (He1 : (e < 2)%Z) by (apply exponent_lt; [exact Hx|change (2 ^ 2) with 4; lra]).
  change (1 # 2 ^ 52) with (1 # 4503599627370496).
  assert (Hcase : e = 0%Z \/ e = 1%Z) by lia.
  destruct Hcase as [He|He]; rewrite He in *.
  - change (2 ^ (0 - 52)) with (1 # 4503599627370496) in *.
    assert (Hm : (2 ^ 52 <= round_half_even (x / (1 # 4503599627370496)) <= 2 ^ 53)%Z).
    { apply Hgrid.
      - change (inject_Z (2 ^ 52)) with 4503599627370496. lra.
      - change (inject_Z (2 ^ 53)) with 9007199254740992.
        destruct (exponent_spec x Hx) as [_ Hlt]. fold e in Hlt. rewrite He in Hlt.
        change (2 ^ (0 + 1)) with 2 in Hlt. lra. }
    destruct Hm as [Hm0 Hm1]. rewrite Zle_Qle in Hm0, Hm1.
    change (inject_Z (2 ^ 52)) with 4503599627370496 in Hm0.
    change (inject_Z (2 ^ 53)) with 9007199254740992 in Hm1.
    rewrite Hdef in *.
    set (r := inject_Z (round_half_even (x / (1 # 4503599627370496)))) in *.
    repeat split; lra.
  - change (2 ^ (1 - 52)) with (1 # 2251799813685248) in *.
    assert (Hm : (2 ^ 52 <= round_half_even (x / (1 # 2251799813685248))
                  <= 3 * 2 ^ 51)%Z).
    { apply Hgrid.
      - change (inject_Z (2 ^ 52)) with 4503599627370496.
        destruct (exponent_spec x Hx) as [Hle _]. fold e in Hle. rewrite He in Hle.
        change (2 ^ 1) with 2 in Hle. lra.
      - change (inject_Z (3 * 2 ^ 51)) with 6755399441055744. lra. }
    destruct Hm as [Hm0 Hm1]. rewrite Zle_Qle in Hm0, Hm1.
    change (inject_Z (2 ^ 52)) with 4503599627370496 in Hm0.
    change (inject_Z (3 * 2 ^ 51)) with 6755399441055744 in Hm1.
    rewrite Hdef in *.
    set (r := inject_Z (round_half_even (x / (1 # 2251799813685248)))) in *.
    repeat split; lra.
Qed.

(** The delay of line 102 for a draw [u] of [0, 1): between 1 and 3, and
    [1 + 2 * u] up to the rounding of the two operations. *)
Lemma uniform_1_3 (u : Q) :
  0 <= u -> u < 1 ->
  1 <= uniform 1 3 u /\ uniform 1 3 u <= 3
  /\ - (3 # 2 ^ 53) <= uniform 1 3 u - (1 + 2 * u)
  /\ uniform 1 3 u - (1 + 2 * u) <= 3 # 2 ^ 53.
Proof.
  intros H0 H1. unfold uniform.
  destruct (binary64_below_2 ((3 - 1) * u)) as (Ha & Hb & Hc & Hd); [lra|lra|].
  set (v := binary64 ((3 - 1) * u)) in *.
  destruct (binary64_1_3 (1 + v)) as (He & Hf & Hg & Hh); [lra|lra|].
  set (d := binary64 (1 + v)) in *.
  change (1 # 2 ^ 53) with (1 # 9007199254740992) in *.
  change (1 # 2 ^ 52) with (1 # 4503599627370496) in *.
  change (3 # 2 ^ 53) with (3 # 9007199254740992).
  repeat split; lra.
Qed.

Lemma count_below_range (n : nat) (p : Z -> bool) :
  (0 <= count_below n p <= Z.of_nat n)%Z.
Proof.
  induction n as [|m IH]; [simpl; lia|].
  cbn [count_below]. destruct (p (Z.of_nat m)); lia.
Qed.

Lemma count_below_lower (n : nat) (p : Z -> bool) :
  forall y : Q,
  (forall k, (0 <= k < Z.of_nat n)%Z -> inject_Z k <= y -> p k = true) ->
  y <= inject_Z (Z.of_nat n) ->
  y <= inject_Z (count_below n p).
Proof.
  induction n as [|m IH]; intros y Hp Hy.
  - exact Hy.
  - cbn [count_below].
    rewrite Nat2Z.inj_succ in Hy. unfold Z.succ in Hy.
    rewrite inject_Z_plus in Hy. change (inject_Z 1) with 1 in Hy.
    rewrite inject_Z_plus.
    destruct (Qlt_le_dec (inject_Z (Z.of_nat m)) y) as [Hc|Hc].
    + assert (Hall : inject_Z (Z.of_nat m) <= inject_Z (count_below m p)).
      { apply IH; [|lra]. intros k Hk Hky. apply Hp; [lia|lra]. }
      rewrite (Hp (Z.of_nat m)) by (try lia; lra).
      change (inject_Z 1) with 1. lra.
    + assert (H : y <= inject_Z (count_below m p)).
      { apply IH; [|exact Hc]. intros k Hk Hky. apply Hp; [lia|exact Hky]. }
      destruct (p (Z.of_nat m)); [change (inject_Z 1) with 1|change (inject_Z 0) with 0];
        lra.
Qed.

Lemma count_below_upper (n : nat) (p : Z -> bool) (y : Q) :
  (forall k, (0 <= k < Z.of_nat n)%Z -> p k = true -> inject_Z k <= y) ->
  - 1 <= y ->
  inject_Z (count_below n p) <= y + 1.
Proof.
  intros Hp Hy. induction n as [|m IH].
  - simpl. change (inject_Z 0) with 0. lra.
  - cbn [count_below]. rewrite inject_Z_plus.
    destruct (p (Z.of_nat m)) eqn:Hpm.
    + assert (Hm : inject_Z (Z.of_nat m) <= y) by (apply Hp; [lia|exact Hpm]).
      destruct (count_below_range m p) as [_ Hc]. rewrite Zle_Qle in Hc.
      change (inject_Z 1) with 1. lra.
    + change (inject_Z 0) with 0.
      assert (inject_Z (count_below m p) <= y + 1)
        by (apply IH; intros k Hk; apply Hp; lia).
      lra.
Qed.

(** Of the values [random.random()] takes, the share on which the delay is
    at most [t] is [(t - 1) / 2], to within [2^-51]. *)
Lemma uniform_1_3_law (t : Q) :
  1 <= t -> t <= 3 ->
  - (1 # 2 ^ 51) <= share (fun u => Qle_bool (uniform 1 3 u) t) - (t - 1) / 2
  /\ share (fun u => Qle_bool (uniform 1 3 u) t) - (t - 1) / 2 <= 1 # 2 ^ 51.
Proof.
  intros H1 H3. unfold share.
  set (p := fun k : Z => Qle_bool (uniform 1 3 (random_value k)) t).
  assert (Hn : Z.of_nat random_values = (2 ^ 53)%Z)
    by (unfold random_values; apply Z2Nat.id; lia).
  assert (Hu : forall k, (0 <= k < Z.of_nat random_values)%Z ->
            0 <= random_value k /\ random_value k < 1
            /\ random_value k * 9007199254740992 == inject_Z k).
  { intros k Hk. rewrite Hn in Hk. unfold random_value.
    change (inject_Z (2 ^ 53)) with 9007199254740992.
    assert (H0 : inject_Z 0 <= inject_Z k) by (rewrite <- Zle_Qle; lia).
    assert (H2 : inject_Z k < inject_Z (2 ^ 53)) by (rewrite <- Zlt_Qlt; lia).
    change (inject_Z 0) with 0 in H0.
    change (inject_Z (2 ^ 53)) with 9007199254740992 in H2.
    set (K := inject_Z k) in *.
    assert (He : K / 9007199254740992 * 9007199254740992 == K) by (field; lra).
    split; [|split; [|exact He]].
    - apply Qle_shift_div_l; lra.
    - apply Qlt_shift_div_r; lra. }
  assert (Hlow : (t - 1) * 4503599627370496 - (3 # 2)
                 <= inject_Z (count_below random_values p)).
  { apply count_below_lower.
    - intros k Hk Hky. destruct (Hu k Hk) as (Hu0 & Hu1 & Hue).
      destruct (uniform_1_3 (random_value k) Hu0 Hu1) as (_ & _ & _ & Hd).
      change (3 # 2 ^ 53) with (3 # 9007199254740992) in Hd.
      unfold p. apply Qle_bool_iff. lra.
    - rewrite Hn. change (inject_Z (2 ^ 53)) with 9007199254740992. lra. }
  assert (Hupp : inject_Z (count_below random_values p)
                 <= (t - 1) * 4503599627370496 + (3 # 2) + 1).
  { apply count_below_upper; [|lra].
    intros k Hk Hpk. destruct (Hu k Hk) as (Hu0 & Hu1 & Hue).
    destruct (uniform_1_3 (random_value k) Hu0 Hu1) as (_ & _ & Hd & _).
    change (3 # 2 ^ 53) with (3 # 9007199254740992) in Hd.
    unfold p in Hpk. apply Qle_bool_iff in Hpk. lra. }
  set (c := inject_Z (count_below random_values p)) in *.
  change (inject_Z (2 ^ 53)) with 9007199254740992.
  change (1 # 2 ^ 51) with (1 # 2251799813685248).
  assert (He : c / 9007199254740992 * 9007199254740992 == c) by (field; lra).
  set (s := c / 9007199254740992) in *.
  clearbody s. clearbody c.
  assert (E : (t - 1) / 2 == (t - 1) * (1 # 2)) by field.
  rewrite E. split; lra.
Qed.

(** The rounding written out above gives what the hardware gives, here on
    draws at both ends of the range, around the middle, where the delay
    passes 2 and every other sum is a tie, and in between. *)
Remark binary64_agrees_with_hardware :
  forallb (fun k =>
             Qeq_bool (float_value (random_float k)) (random_value k)
             && Qeq_bool (float_value (uniform_float (random_float k)))
                  (uniform 1 3 (random_value k)))
    [0; 1; 2; 3; 1234567890123457; 4503599627370495; 4503599627370496;
     4503599627370497; 4503599627370498; 4503599627370499;
     6004799503160661; 6004799503160663; 9007199254740989;
     9007199254740990; 9007199254740991]%Z
  = true.
Proof. vm_compute. reflexivity. Qed.

(** ** What a computation may do to the state *)

Lemma sends_only_ret {A} P (a : A) : sends_only P (ret a).
Proof.
  intros w st; exists []; simpl.
  rewrite app_nil_r; repeat split; constructor.
Qed.

Lemma sends_only_raise {A} P e : sends_only P (@raise A e).
Proof.
  intros w st; exists []; simpl.
  rewrite app_nil_r; repeat split; constructor.
Qed.

Lemma sends_only_send P r : P r -> sends_only P (send r).
Proof.
  intros HP w st; exists [Http r]; simpl; repeat split.
  constructor; [eauto|constructor].
Qed.

Lemma sends_only_bind {A B} P (m : M A) (k : A -> M B) :
  sends_only P m -> (forall a, sends_only P (k a)) -> sends_only P (bind m k).
Proof.
  intros Hm Hk w st. unfold bind.
  destruct (Hm w st) as (evs & Hc & Hd & Ht & Hr).
  destruct (m w st) as [[a|e] st1]; simpl in *.
  - destruct (Hk a w st1) as (evs' & Hc' & Hd' & Ht' & Hr').
    exists (evs ++ evs'). rewrite Hc', Hd', Ht', Hc, Hd, Ht, app_assoc.
    repeat split. now apply Forall_app.
  - exists evs; auto.
Qed.

Lemma sends_only_getitem P t k : sends_only P (getitem t k).
Proof.
  unfold getitem. destruct t as [[s|nm cl ats cs]|];
    try apply sends_only_raise.
  destruct (lookup k ats); [apply sends_only_ret|apply sends_only_raise].
Qed.

Lemma sends_only_any {A} P (f : A -> M bool) (l : list A) :
  (forall x, sends_only P (f x)) -> sends_only P (any_M f l).
Proof.
  intros Hf; induction l as [|x l IH]; simpl.
  - apply sends_only_ret.
  - apply sends_only_bind; [apply Hf|].
    intros [|]; [apply sends_only_ret|exact IH].
Qed.

Create HintDb sends.

#[local] Hint Resolve sends_only_ret sends_only_raise sends_only_send
  sends_only_getitem sends_only_any : sends.

Lemma sends_only_weaken {A} (P Q : request -> Prop) (m : M A) :
  (forall r, P r -> Q r) -> sends_only P m -> sends_only Q m.
Proof.
  intros HPQ Hm w st. destruct (Hm w st) as (evs & Hc & Hd & Ht & Hr).
  exists evs; repeat split; auto.
  eapply Forall_impl; [|exact Hr].
  intros e (r & -> & HP); eauto.
Qed.

Section Adapters.

Context {R : Runtime}.

Lemma sends_only_re_search P pattern text : sends_only P (re_search pattern text).
Proof.
  unfold re_search.
  destruct (tokenize pattern) as [ts|].
  - destruct (parse_tokens ts (None, Eps) []); auto with sends.
  - destruct (re_other pattern text); auto with sends.
Qed.

Ltac adapter :=
  repeat first
    [ apply sends_only_bind
    | apply sends_only_send; reflexivity
    | apply sends_only_getitem
    | apply sends_only_ret
    | apply sends_only_any
    | apply sends_only_re_search
    | intro ].

Lemma check_ugc_india_sends i :
  sends_only (fun r => url r = ugc_india_url) (check_ugc_india i).
Proof. unfold check_ugc_india, requests_get, session_post. adapter. Qed.

Lemma check_hec_pakistan_sends i :
  sends_only (fun r => url r = hec_pakistan_url) (check_hec_pakistan i).
Proof. unfold check_hec_pakistan, requests_get. adapter. Qed.

Lemma check_moe_saudi_sends i :
  sends_only (fun r => url r = moe_saudi_url) (check_moe_saudi i).
Proof. unfold check_moe_saudi, requests_get. adapter. Qed.

Lemma check_anabin_germany_sends i :
  sends_only (fun r => url r = anabin_germany_url ++ i) (check_anabin_germany i).
Proof. unfold check_anabin_germany, requests_get. adapter. Qed.

Lemma check_nuc_nigeria_sends i :
  sends_only (fun r => url r = nuc_nigeria_url) (check_nuc_nigeria i).
Proof. unfold check_nuc_nigeria, requests_get. adapter. Qed.

Lemma check_ugc_bangladesh_sends i :
  sends_only (fun r => url r = ugc_bangladesh_url) (check_ugc_bangladesh i).
Proof. unfold check_ugc_bangladesh, requests_get. adapter. Qed.

(** Whatever the country, [dispatch] only talks to the network. *)
Lemma dispatch_sends i c : sends_only (fun _ => True) (dispatch i c).
Proof.
  unfold dispatch.
  repeat match goal with |- context [if ?b then _ else _] => destruct b end;
    try apply sends_only_ret;
    eapply sends_only_weaken;
    eauto using check_ugc_india_sends, check_hec_pakistan_sends,
      check_moe_saudi_sends, check_anabin_germany_sends,
      check_nuc_nigeria_sends, check_ugc_bangladesh_sends.
Qed.

(** C3. For each of the six countries [dispatch] is the adapter of that
    country: India the UGC India check, Pakistan the HEC check, Saudi
    Arabia the MOE check, Germany the Anabin check, Nigeria the NUC check,
    Bangladesh the UGC Bangladesh check. No other adapter runs: every
    request the dispatch sends goes to the registry of the country asked
    for, and the six registries are distinct. *)
Theorem dispatch_selects_adapter (institution : pystr) :
  dispatch institution (py "India") = check_ugc_india institution
  /\ dispatch institution (py "Pakistan") = check_hec_pakistan institution
  /\ dispatch institution (py "Saudi Arabia") = check_moe_saudi institution
  /\ dispatch institution (py "Germany") = check_anabin_germany institution
  /\ dispatch institution (py "Nigeria") = check_nuc_nigeria institution
  /\ dispatch institution (py "Bangladesh") = check_ugc_bangladesh institution
  /\ map fst registries = COUNTRIES
  /\ NoDup (map (fun cu => snd cu institution) registries)
  /\ Forall (fun cu =>
       sends_only (fun r => url r = snd cu institution)
         (dispatch institution (fst cu))) registries.
Proof.
  repeat split; try reflexivity.
  - assert (Hg : forall u, startswith anabin_germany_url u = false ->
                 u <> anabin_germany_url ++ institution).
    { intros u Hu ->.
      assert (startswith anabin_germany_url (anabin_germany_url ++ institution) = true)
        by (apply startswith_spec; eauto).
      congruence. }
    assert (Hg' : forall u, startswith anabin_germany_url u = false ->
                 anabin_germany_url ++ institution <> u)
      by (intros u Hu E; exact (Hg u Hu (eq_sym E))).
    unfold registries; simpl map.
    repeat (constructor;
            [simpl; intros H;
             repeat (destruct H as [H|H];
               [try discriminate H;
                try (now apply Hg in H);
                try (now apply Hg' in H)|]); exact H|]).
    constructor.
  - unfold registries.
    repeat constructor; simpl fst; simpl snd; cbv beta.
    + apply check_ugc_india_sends.
    + apply check_hec_pakistan_sends.
    + apply check_moe_saudi_sends.
    + apply check_anabin_germany_sends.
    + apply check_nuc_nigeria_sends.
    + apply check_ugc_bangladesh_sends.
Qed.

End Adapters.

(** ** Running the checker *)

Section Checker.

Context {R : Runtime}.

Lemma body_run i c w st :
  check_accreditation_body i c w st =
  match dispatch i c w (after_delay w st) with
  | (Ok b, st1) => (Ok b, st1)
  | (Raise e, st1) => (Ok false, reported e st1)
  end.
Proof.
  unfold check_accreditation_body, try_except, rate_limit, bind, random_uniform,
    sleep, st_error, emit, ret, after_delay, reported; simpl.
  destruct (dispatch i c w _) as [[b|e] st1]; reflexivity.
Qed.

Lemma dispatch_cache i c w st : cache (snd (dispatch i c w st)) = cache st.
Proof. destruct (dispatch_sends i c w st) as (evs & H & _); exact H. Qed.

Lemma check_accreditation_miss i c w st :
  cache_get (i, c) (cache st) = None ->
  check_accreditation i c w st =
  match dispatch i c w (after_delay w st) with
  | (Ok b, st1) => (Ok b, stored (i, c) b (cache st) st1)
  | (Raise e, st1) => (Ok false, stored (i, c) false (cache st) (reported e st1))
  end.
Proof.
  intros Hmiss. unfold check_accreditation, lru_cache. rewrite Hmiss, body_run.
  pose proof (dispatch_cache i c w (after_delay w st)) as Hc.
  destruct (dispatch i c w (after_delay w st)) as [[b|e] st1];
    simpl in Hc; unfold stored, reported; simpl; rewrite Hc; reflexivity.
Qed.

Lemma check_accreditation_hit i c w st v :
  cache_get (i, c) (cache st) = Some v ->
  check_accreditation i c w st =
  (Ok v, mkState (cache_touch (i, c) v (cache st)) (trace st) (draws st)).
Proof.
  intros Hhit. unfold check_accreditation, lru_cache. now rewrite Hhit.
Qed.

(** No exception leaves [check_accreditation]. *)
Lemma check_accreditation_returns i c w st :
  exists b, fst (check_accreditation i c w st) = Ok b.
Proof.
  destruct (cache_get (i, c) (cache st)) as [v|] eqn:Hc.
  - rewrite (check_accreditation_hit i c w st v Hc); simpl; eauto.
  - rewrite (check_accreditation_miss i c w st Hc).
    destruct (dispatch i c w (after_delay w st)) as [[b|e] st1]; simpl; eauto.
Qed.

(** A country outside the six falls through the chain. *)
Lemma dispatch_unknown i c : ~ In c COUNTRIES -> dispatch i c = ret false.
Proof.
  intros Hc. unfold dispatch.
  repeat match goal with
  | |- context [str_eqb c ?x] =>
      let E := fresh in
      destruct (str_eqb c x) eqn:E;
      [apply str_eqb_eq in E; exfalso; apply Hc; subst c; simpl; tauto|]
  end.
  reflexivity.
Qed.

(** A network failure on the first request leaves the adapter at once. *)
Lemma dispatch_network_failure i c w st e :
  In c COUNTRIES -> (forall r, http w r = Raise e) ->
  exists r, dispatch i c w st
            = (Raise e, mkState (cache st) (trace st ++ [Http r]) (draws st)).
Proof.
  intros Hc Hw.
  simpl in Hc.
  repeat (destruct Hc as [<-|Hc]);
    [ exists (mkRequest GET ugc_india_url [])
    | exists (mkRequest GET hec_pakistan_url [])
    | exists (mkRequest GET moe_saudi_url [])
    | exists (mkRequest GET (anabin_germany_url ++ i) [])
    | exists (mkRequest GET nuc_nigeria_url [])
    | exists (mkRequest GET ugc_bangladesh_url [])
    | contradiction ];
    unfold dispatch;
    repeat match goal with
    | |- context [str_eqb (py ?a) (py ?b)] =>
        let v := eval vm_compute in (str_eqb (py a) (py b)) in
        change (str_eqb (py a) (py b)) with v
    end;
    cbv [check_ugc_india check_hec_pakistan check_moe_saudi
         check_anabin_germany check_nuc_nigeria check_ugc_bangladesh
         requests_get send bind].
  all: cbv beta iota; rewrite Hw; reflexivity.
Qed.

(** The India form without its [__VIEWSTATE] field. *)
Lemma check_ugc_india_missing_viewstate i w st resp :
  http w (mkRequest GET ugc_india_url []) = Ok resp ->
  find (html_parser (text resp)) (py "input") [(py "id", py "__VIEWSTATE")] = None ->
  check_ugc_india i w st
  = (Raise TypeError,
     mkState (cache st) (trace st ++ [Http (mkRequest GET ugc_india_url [])]) (draws st)).
Proof.
  intros Hget Hfind.
  unfold check_ugc_india, requests_get, send, bind. rewrite Hget, Hfind.
  reflexivity.
Qed.

End Checker.

(** ** Failed lookups (C1) and countries outside the six (C2) *)

Section Failures.

Context {R : Runtime}.

(** C1, as the code has it. A lookup that fails by raising (a network
    failure, a timeout, an expected element missing from the markup) never
    leaves [check_accreditation] as an exception: the error is passed to
    [st.error] and the call returns [False], the very value of an
    institution that is not listed, which is also what the cache keeps.
    There is no separate value for a failed lookup. In particular, for
    India, a form page without the [__VIEWSTATE] field makes the call
    return [False] after one request, the [TypeError] being reported. *)
Theorem lookup_failure_returns_False (institution country : pystr)
  (w : world) (st : state) :
  cache_get (institution, country) (cache st) = None ->
  (exists b, fst (check_accreditation institution country w st) = Ok b)
  /\ (forall e st1,
        dispatch institution country w (after_delay w st) = (Raise e, st1) ->
        check_accreditation institution country w st
        = (Ok false, stored (institution, country) false (cache st) (reported e st1)))
  /\ (forall e,
        In country COUNTRIES -> (forall r, http w r = Raise e) ->
        exists r,
          check_accreditation institution country w st
          = (Ok false,
             mkState (cache_put maxsize (institution, country) false (cache st))
                     (trace st ++ [Sleep (uniform 1 3 (random w (draws st)));
                                   Http r; StError e])
                     (S (draws st))))
  /\ (forall resp,
        country = py "India" ->
        http w (mkRequest GET ugc_india_url []) = Ok resp ->
        find (html_parser (text resp)) (py "input") [(py "id", py "__VIEWSTATE")]
        = None ->
        check_accreditation institution country w st
        = (Ok false,
           mkState (cache_put maxsize (institution, country) false (cache st))
                   (trace st ++ [Sleep (uniform 1 3 (random w (draws st)));
                                 Http (mkRequest GET ugc_india_url []);
                                 StError TypeError])
                   (S (draws st)))).
Proof.
  intros Hmiss. repeat split.
  - apply check_accreditation_returns.
  - intros e st1 Hd. now rewrite (check_accreditation_miss _ _ w st Hmiss), Hd.
  - intros e Hc Hw.
    destruct (dispatch_network_failure institution country w (after_delay w st) e Hc Hw)
      as [r Hr].
    exists r. rewrite (check_accreditation_miss _ _ w st Hmiss), Hr.
    unfold stored, reported, after_delay; simpl.
    now rewrite <- !app_assoc.
  - intros resp -> Hget Hfind.
    rewrite (check_accreditation_miss _ _ w st Hmiss).
    change (dispatch institution (py "India")) with (check_ugc_india institution).
    rewrite (check_ugc_india_missing_viewstate institution w (after_delay w st) resp Hget Hfind).
    unfold stored, reported, after_delay; simpl.
    now rewrite <- !app_assoc.
Qed.

(** C2, as the code has it. A country outside the six reaches the end of
    the chain of comparisons: after the rate-limiting delay the call returns
    [False] without sending any request, without raising and without
    reporting an error, and [False] is cached like any other result. *)
Theorem unknown_country_returns_False (institution country : pystr)
  (w : world) (st : state) :
  ~ In country COUNTRIES ->
  cache_get (institution, country) (cache st) = None ->
  check_accreditation institution country w st
  = (Ok false,
     mkState (cache_put maxsize (institution, country) false (cache st))
             (trace st ++ [Sleep (uniform 1 3 (random w (draws st)))])
             (S (draws st))).
Proof.
  intros Hc Hmiss.
  rewrite (check_accreditation_miss _ _ w st Hmiss), (dispatch_unknown institution country Hc).
  reflexivity.
Qed.

End Failures.

(** C1 refuted as stated: with every registry unreachable the lookup for a
    German institution raises [ConnectionError], and the call returns the
    same [False], shown under the same label, as when the registry answers
    that it found nothing. *)
Lemma lookup_failure_reads_not_recognized :
  let R := sample_runtime in
  let failed :=
    check_accreditation (py "MIT") (py "Germany") outage init_state in
  let unlisted :=
    check_accreditation (py "MIT") (py "Germany")
      (serving 200 (py "Keine Treffer gefunden")) init_state in
  fst (dispatch (py "MIT") (py "Germany") outage (after_delay outage init_state))
  = Raise ConnectionError
  /\ fst failed = Ok false
  /\ fst unlisted = Ok false
  /\ cache (snd failed) = cache (snd unlisted)
  /\ accreditation_status false = 10060%N :: py " Not Recognized".
Proof. vm_compute. repeat split. Qed.

(** The adapters do not look at the status code: the error page of a
    failing server is matched like any listing, and here reads as a
    recognized institution. *)
Remark error_page_is_matched_like_a_listing :
  let R := sample_runtime in
  check_accreditation tum (py "Germany")
    (serving 500 (py "Internal Server Error")) init_state
  = check_accreditation tum (py "Germany")
      (serving 200 (py "Internal Server Error")) init_state
  /\ fst (check_accreditation tum (py "Germany")
            (serving 500 (py "Internal Server Error")) init_state) = Ok true.
Proof. vm_compute. split; reflexivity. Qed.

Lemma lookup_failure_returns_False_witness :
  let R := sample_runtime in
  let w := india_world india_broken_form (py "No College Found") in
  check_accreditation (py "MIT") (py "India") w init_state
  = (Ok false,
     mkState [((py "MIT", py "India"), false)]
             [Sleep (uniform 1 3 (1 # 2));
              Http (mkRequest GET ugc_india_url []);
              StError TypeError] 1).
Proof.
  intros R w.
  assert (Hmiss : cache_get (py "MIT", py "India") (cache init_state) = None)
    by reflexivity.
  destruct (@lookup_failure_returns_False R (py "MIT") (py "India") w init_state Hmiss)
    as (_ & _ & _ & H).
  rewrite (H (mkResponse 200 india_broken_form) eq_refl eq_refl eq_refl).
  reflexivity.
Defined.

(** C2 refuted as stated: for the country France nothing is rejected; the
    call sleeps and returns [False], with no exception and no error
    reported. *)
Lemma unknown_country_silent_default :
  let R := sample_runtime in
  ~ In (py "France") COUNTRIES
  /\ check_accreditation (py "MIT") (py "France") outage init_state
     = (Ok false,
        mkState [((py "MIT", py "France"), false)]
                [Sleep (uniform 1 3 (1 # 2))] 1).
Proof.
  split; [|reflexivity].
  simpl. intros H.
  repeat (destruct H as [H|H]; [discriminate H|]). exact H.
Qed.

Lemma unknown_country_returns_False_witness :
  check_accreditation (R := sample_runtime) (py "MIT") (py "France") outage init_state
  = (Ok false,
     mkState (cache_put maxsize (py "MIT", py "France") false [])
             [Sleep (uniform 1 3 (1 # 2))] 1).
Proof.
  apply (@unknown_country_returns_False sample_runtime (py "MIT") (py "France")
           outage init_state).
  - simpl. intros H.
    repeat (destruct H as [H|H]; [discriminate H|]). exact H.
  - reflexivity.
Defined.

(** ** Germany (C6) and the empty institution name (C9) *)

Section Matching.

Context {R : Runtime}.

Lemma lower_empty : lower [] = [].
Proof. reflexivity. Qed.

(** C6. For Germany one GET is sent to the search URL with the institution
    name appended as the value of the [name] query parameter; when the body
    of the answer contains the phrase "Keine Treffer gefunden" the result is
    [False] (not recognized), and when it does not the result is [True]
    (recognized). *)
Theorem anabin_germany_verdict (institution : pystr) (w : world) (st : state)
  (resp : response) :
  let search_url :=
    py "https://anabin.kmk.org/no_cache/filter/institutionen.html?search=1&name="
    ++ institution in
  let phrase_present :=
    exists a b, text resp = a ++ py "Keine Treffer gefunden" ++ b in
  http w (mkRequest GET search_url []) = Ok resp ->
  cache_get (institution, py "Germany") (cache st) = None ->
  (phrase_present ->
     fst (check_anabin_germany institution w st) = Ok false
     /\ fst (check_accreditation institution (py "Germany") w st) = Ok false)
  /\ (~ phrase_present ->
     fst (check_anabin_germany institution w st) = Ok true
     /\ fst (check_accreditation institution (py "Germany") w st) = Ok true)
  /\ trace (snd (check_accreditation institution (py "Germany") w st))
     = trace st ++ [Sleep (uniform 1 3 (random w (draws st)));
                    Http (mkRequest GET search_url [])].
Proof.
  intros search_url phrase_present Hget Hmiss.
  assert (Hrun : forall st0,
    check_anabin_germany institution w st0
    = (Ok (negb (contains (py "Keine Treffer gefunden") (text resp))),
       mkState (cache st0) (trace st0 ++ [Http (mkRequest GET search_url [])])
               (draws st0))).
  { intros st0. unfold check_anabin_germany, requests_get, send, bind.
    fold anabin_germany_url in search_url. fold search_url.
    now rewrite Hget. }
  rewrite (check_accreditation_miss _ _ w st Hmiss).
  change (dispatch institution (py "Germany"))
    with (check_anabin_germany institution).
  rewrite !Hrun. simpl fst; simpl snd.
  assert (Htrace : forall b,
    trace (stored (institution, py "Germany") b (cache st)
             (mkState (cache (after_delay w st))
                (trace (after_delay w st) ++ [Http (mkRequest GET search_url [])])
                (draws (after_delay w st))))
    = trace st ++ [Sleep (uniform 1 3 (random w (draws st)));
                   Http (mkRequest GET search_url [])]).
  { intros b. unfold stored, after_delay; simpl. now rewrite <- app_assoc. }
  destruct (contains (py "Keine Treffer gefunden") (text resp)) eqn:Hc.
  - apply contains_spec in Hc.
    split; [|split].
    + intros _. split; reflexivity.
    + intros Hn. contradiction.
    + apply Htrace.
  - assert (Hn : ~ phrase_present).
    { intros Hp. apply contains_spec in Hp. congruence. }
    split; [|split].
    + intros Hp. contradiction.
    + intros _. split; reflexivity.
    + apply Htrace.
Qed.

(** C9. For the empty institution name the Saudi Arabia and the Nigeria
    adapters return [True] as soon as the listing page is fetched, whatever
    it contains: the lower-cased empty string is contained in every body.
    The same holds of a call of [check_accreditation] that misses the
    cache. *)
Theorem empty_name_always_recognized (w : world) (st : state) :
  (forall resp,
     http w (mkRequest GET moe_saudi_url []) = Ok resp ->
     fst (check_moe_saudi [] w st) = Ok true
     /\ (cache_get ([], py "Saudi Arabia") (cache st) = None ->
         fst (check_accreditation [] (py "Saudi Arabia") w st) = Ok true))
  /\ (forall resp,
     http w (mkRequest GET nuc_nigeria_url []) = Ok resp ->
     fst (check_nuc_nigeria [] w st) = Ok true
     /\ (cache_get ([], py "Nigeria") (cache st) = None ->
         fst (check_accreditation [] (py "Nigeria") w st) = Ok true)).
Proof.
  split; intros resp Hget; split.
  - unfold check_moe_saudi, requests_get, send, bind.
    rewrite Hget, lower_empty, contains_empty. reflexivity.
  - intros Hmiss. rewrite (check_accreditation_miss _ _ w st Hmiss).
    change (dispatch [] (py "Saudi Arabia")) with (check_moe_saudi []).
    unfold check_moe_saudi, requests_get, send, bind.
    rewrite Hget, lower_empty, contains_empty. reflexivity.
  - unfold check_nuc_nigeria, requests_get, send, bind.
    rewrite Hget, lower_empty, contains_empty. reflexivity.
  - intros Hmiss. rewrite (check_accreditation_miss _ _ w st Hmiss).
    change (dispatch [] (py "Nigeria")) with (check_nuc_nigeria []).
    unfold check_nuc_nigeria, requests_get, send, bind.
    rewrite Hget, lower_empty, contains_empty. reflexivity.
Qed.

End Matching.

Lemma anabin_germany_verdict_witness :
  let R := sample_runtime in
  fst (check_accreditation tum (py "Germany")
         (serving 200 (py "<p>Keine Treffer gefunden</p>")) init_state) = Ok false
  /\ fst (check_accreditation tum (py "Germany")
         (serving 200 (py "<p>1 Treffer</p>")) init_state) = Ok true.
Proof.
  intros R. split.
  - apply (@anabin_germany_verdict R tum
             (serving 200 (py "<p>Keine Treffer gefunden</p>")) init_state
             (mkResponse 200 (py "<p>Keine Treffer gefunden</p>"))
             eq_refl eq_refl).
    exists (py "<p>"), (py "</p>"). reflexivity.
  - apply (@anabin_germany_verdict R tum
             (serving 200 (py "<p>1 Treffer</p>")) init_state
             (mkResponse 200 (py "<p>1 Treffer</p>"))
             eq_refl eq_refl).
    intros Hp. apply contains_spec in Hp. discriminate Hp.
Defined.

Lemma empty_name_always_recognized_witness :
  let R := sample_runtime in
  let w := serving 200 (py "<html>no university listed today</html>") in
  fst (check_moe_saudi [] w init_state) = Ok true
  /\ fst (check_nuc_nigeria [] w init_state) = Ok true
  /\ fst (check_accreditation [] (py "Nigeria") w init_state) = Ok true.
Proof.
  intros R w.
  destruct (@empty_name_always_recognized R w init_state) as [Hs Hn].
  destruct (Hs (mkResponse 200 (py "<html>no university listed today</html>")) eq_refl)
    as [Hs1 _].
  destruct (Hn (mkResponse 200 (py "<html>no university listed today</html>")) eq_refl)
    as [Hn1 Hn2].
  split; [exact Hs1|split; [exact Hn1|exact (Hn2 eq_refl)]].
Defined.

(** ** The cache in front of the checker *)

Lemma cache_get_touch (k : key) (v : bool) (c : list (key * bool)) :
  cache_get k (cache_touch k v c) = Some v.
Proof. unfold cache_touch; simpl. now rewrite key_eqb_refl. Qed.

Lemma cache_get_put (k : key) (v : bool) (c : list (key * bool)) :
  cache_get k c = None -> cache_get k (cache_put maxsize k v c) = Some v.
Proof.
  intros Hmiss. unfold cache_put. rewrite Hmiss.
  destruct (Nat.ltb (length c) maxsize); simpl; now rewrite key_eqb_refl.
Qed.

Lemma added_app (st st' : state) (evs : list event) :
  trace st' = trace st ++ evs -> added st st' = evs.
Proof.
  intros H. unfold added. rewrite H.
  rewrite skipn_app, skipn_all, Nat.sub_diag. reflexivity.
Qed.

Lemma added_same (st st' : state) : trace st' = trace st -> added st st' = [].
Proof. intros H. apply added_app. now rewrite app_nil_r. Qed.

Lemma stateless_any {A} (f : A -> M bool) (l : list A) :
  (forall x, stateless (f x)) -> stateless (any_M f l).
Proof.
  intros Hf w st; induction l as [|x l IH]; simpl; [reflexivity|].
  unfold bind. pose proof (Hf x w st) as Hx.
  destruct (f x w st) as [[[|]|e] st1]; simpl in Hx; subst st1; auto.
Qed.

Lemma getitem_cases (t : option node) (k : pystr) (w : world) (st : state) :
  (exists v, getitem t k w st = (Ok v, st))
  \/ (exists e, getitem t k w st = (Raise e, st)).
Proof.
  unfold getitem. destruct t as [[s|nm cl ats cs]|]; try (right; eexists; reflexivity).
  destruct (lookup k ats); [left|right]; eexists; reflexivity.
Qed.

Section Requests.

Context {R : Runtime}.

Lemma stateless_re_search pattern text : stateless (re_search pattern text).
Proof.
  intros w st. unfold re_search.
  destruct (tokenize pattern) as [ts|].
  - destruct (parse_tokens ts (None, Eps) []); reflexivity.
  - destruct (re_other pattern text); reflexivity.
Qed.

Lemma check_hec_pakistan_state i w st :
  snd (check_hec_pakistan i w st) = sent (mkRequest GET hec_pakistan_url []) st.
Proof.
  unfold check_hec_pakistan, requests_get, send, bind.
  destruct (http w _) as [resp|e]; [|reflexivity].
  apply stateless_any. intros div. apply stateless_re_search.
Qed.

Lemma check_moe_saudi_state i w st :
  snd (check_moe_saudi i w st) = sent (mkRequest GET moe_saudi_url []) st.
Proof.
  unfold check_moe_saudi, requests_get, send, bind.
  destruct (http w _); reflexivity.
Qed.

Lemma check_anabin_germany_state i w st :
  snd (check_anabin_germany i w st)
  = sent (mkRequest GET (anabin_germany_url ++ i) []) st.
Proof.
  unfold check_anabin_germany, requests_get, send, bind.
  destruct (http w _); reflexivity.
Qed.

Lemma check_nuc_nigeria_state i w st :
  snd (check_nuc_nigeria i w st) = sent (mkRequest GET nuc_nigeria_url []) st.
Proof.
  unfold check_nuc_nigeria, requests_get, send, bind.
  destruct (http w _); reflexivity.
Qed.

Lemma check_ugc_bangladesh_state i w st :
  snd (check_ugc_bangladesh i w st) = sent (mkRequest GET ugc_bangladesh_url []) st.
Proof.
  unfold check_ugc_bangladesh, requests_get, send, bind.
  destruct (http w _); reflexivity.
Qed.

(** India: the GET, and the POST when both hidden fields were found. *)
Lemma check_ugc_india_state i w st :
  snd (check_ugc_india i w st) = sent (mkRequest GET ugc_india_url []) st
  \/ exists d,
       snd (check_ugc_india i w st)
       = sent (mkRequest POST ugc_india_url d)
              (sent (mkRequest GET ugc_india_url []) st).
Proof.
  unfold check_ugc_india, requests_get, session_post, send, bind, sent.
  destruct (http w (mkRequest GET ugc_india_url [])) as [resp|e];
    [|left; reflexivity].
  destruct (getitem_cases
              (find (html_parser (text resp)) (py "input") [(py "id", py "__VIEWSTATE")])
              (py "value") w
              (mkState (cache st) (trace st ++ [Http (mkRequest GET ugc_india_url [])])
                       (draws st)))
    as [[v ->]|[e ->]]; [|left; reflexivity].
  destruct (getitem_cases
              (find (html_parser (text resp)) (py "input")
                 [(py "id", py "__EVENTVALIDATION")])
              (py "value") w
              (mkState (cache st) (trace st ++ [Http (mkRequest GET ugc_india_url [])])
                       (draws st)))
    as [[v' ->]|[e ->]]; [|left; reflexivity].
  right. eexists.
  destruct (http w (mkRequest POST _ _)); reflexivity.
Qed.

Lemma dispatch_requests i c w st :
  exists evs,
    trace (snd (dispatch i c w st)) = trace st ++ evs
    /\ Forall (fun e => is_http e = true) evs
    /\ lookup_requests c (length evs).
Proof.
  destruct (in_dec (list_eq_dec N.eq_dec) c COUNTRIES) as [Hin|Hout].
  - assert (Hone : forall r, snd (dispatch i c w st) = sent r st ->
              c <> py "India" ->
              exists evs, trace (snd (dispatch i c w st)) = trace st ++ evs
                /\ Forall (fun e => is_http e = true) evs
                /\ lookup_requests c (length evs)).
    { intros r Hr Hc. exists [Http r]. rewrite Hr.
      split; [reflexivity|]. split; [repeat constructor|].
      split; [intros; contradiction|]. split; [reflexivity|intros; contradiction]. }
    assert (Hindia : lookup_requests (py "India") 1 /\ lookup_requests (py "India") 2).
    { unfold lookup_requests. repeat split; intros; try lia; try contradiction.
      all: exfalso; match goal with H : ~ In _ _ |- _ => apply H end; simpl; auto. }
    simpl in Hin.
    destruct Hin as [<-|[<-|[<-|[<-|[<-|[<-|[]]]]]]].
    + change (dispatch i (py "India")) with (check_ugc_india i).
      destruct (check_ugc_india_state i w st) as [H|[d H]]; rewrite H.
      * exists [Http (mkRequest GET ugc_india_url [])].
        split; [reflexivity|]. split; [repeat constructor|apply Hindia].
      * exists [Http (mkRequest GET ugc_india_url []);
                Http (mkRequest POST ugc_india_url d)].
        split; [simpl; now rewrite <- app_assoc|].
        split; [repeat constructor|apply Hindia].
    + eapply Hone; [apply check_hec_pakistan_state|discriminate].
    + eapply Hone; [apply check_moe_saudi_state|discriminate].
    + eapply Hone; [apply check_anabin_germany_state|discriminate].
    + eapply Hone; [apply check_nuc_nigeria_state|discriminate].
    + eapply Hone; [apply check_ugc_bangladesh_state|discriminate].
  - exists []. rewrite (dispatch_unknown i c Hout). simpl.
    rewrite app_nil_r. split; [reflexivity|]. split; [constructor|].
    split; [|split; [intros; contradiction|reflexivity]].
    intros ->. exfalso. apply Hout. simpl; auto.
Qed.

End Requests.

(** ** Cache hits, throttling and cached failures (C4, C7, C8) *)

Section Caching.

Context {R : Runtime}.

Lemma http_calls_all (evs : list event) :
  Forall (fun e => is_http e = true) evs -> http_calls evs = length evs.
Proof.
  unfold http_calls. induction 1 as [|e evs He _ IH]; simpl; [reflexivity|].
  rewrite He; simpl. now rewrite IH.
Qed.

Lemma http_calls_app (a b : list event) :
  http_calls (a ++ b) = (http_calls a + http_calls b)%nat.
Proof. unfold http_calls. now rewrite filter_app, length_app. Qed.

Lemma no_sleep_of_http (evs : list event) :
  Forall (fun e => is_http e = true) evs -> Forall (fun e => is_sleep e = false) evs.
Proof.
  apply Forall_impl. intros [d|r|e]; simpl; congruence.
Qed.

(** What a call that misses the cache does: it draws one random number,
    sleeps, runs the lookup, reports the exception if there is one, and
    stores the result. *)
Lemma miss_run i c w st :
  cache_get (i, c) (cache st) = None ->
  exists b evs,
    check_accreditation i c w st
    = (Ok b, mkState (cache_put maxsize (i, c) b (cache st))
                     (trace st ++ Sleep (uniform 1 3 (random w (draws st))) :: evs)
                     (S (draws st)))
    /\ Forall (fun e => is_sleep e = false) evs
    /\ lookup_requests c (http_calls evs).
Proof.
  intros Hmiss. rewrite (check_accreditation_miss i c w st Hmiss).
  destruct (dispatch_requests i c w (after_delay w st)) as (evs & Ht & Hh & Hn).
  destruct (dispatch_sends i c w (after_delay w st)) as (evs' & _ & Hd & _).
  destruct (dispatch i c w (after_delay w st)) as [[b|e] st1]; simpl in *.
  - exists b, evs. split; [|split].
    + unfold stored. rewrite Ht, Hd, <- app_assoc. reflexivity.
    + now apply no_sleep_of_http.
    + now rewrite http_calls_all.
  - exists false, (evs ++ [StError e]). split; [|split].
    + unfold stored, reported; simpl. rewrite Ht, Hd, <- !app_assoc. reflexivity.
    + apply Forall_app; split; [now apply no_sleep_of_http|].
      repeat constructor.
    + rewrite http_calls_app, http_calls_all by assumption.
      simpl. now rewrite Nat.add_0_r.
Qed.

(** After a call its key is in the cache, with the value returned. *)
Lemma result_is_cached i c w st :
  exists b,
    fst (check_accreditation i c w st) = Ok b
    /\ cache_get (i, c) (cache (snd (check_accreditation i c w st))) = Some b.
Proof.
  destruct (cache_get (i, c) (cache st)) as [v|] eqn:Hc.
  - rewrite (check_accreditation_hit i c w st v Hc). exists v; simpl.
    split; [reflexivity|apply cache_get_touch].
  - destruct (miss_run i c w st Hc) as (b & evs & -> & _).
    exists b; simpl. split; [reflexivity|now apply cache_get_put].
Qed.

(** A call repeated at once hits the cache. *)
Lemma repeated_call_hits i c w w' st :
  let first := check_accreditation i c w st in
  let second := check_accreditation i c w' (snd first) in
  fst second = fst first
  /\ trace (snd second) = trace (snd first)
  /\ draws (snd second) = draws (snd first).
Proof.
  intros first second.
  destruct (result_is_cached i c w st) as (b & Hb & Hcached).
  fold first in Hb, Hcached.
  unfold second.
  rewrite (check_accreditation_hit i c w' (snd first) b Hcached), Hb.
  repeat split.
Qed.

(** C4, as the code has it. A second call with the same arguments is
    served from the cache, whatever the registries answer by then: it
    returns the verdict of the first call, adds nothing to the trace (no
    delay, no request, no error message) and draws no random number. So the
    two calls together send the requests of one lookup: two at most for
    India (the form, then the search), one for each of the other five
    countries, none for a country outside the six. *)
Theorem second_call_served_from_cache (institution country : pystr)
  (w w' : world) (st : state) :
  let first := check_accreditation institution country w st in
  let second := check_accreditation institution country w' (snd first) in
  fst second = fst first
  /\ added (snd first) (snd second) = []
  /\ draws (snd second) = draws (snd first)
  /\ (cache_get (institution, country) (cache st) = None ->
      lookup_requests country (http_calls (added st (snd second)))).
Proof.
  intros first second.
  destruct (repeated_call_hits institution country w w' st) as (Hv & Ht & Hd).
  fold first in Hv, Ht, Hd. fold second in Hv, Ht, Hd.
  split; [exact Hv|]. split; [now apply added_same|]. split; [exact Hd|].
  intros Hmiss.
  destruct (miss_run institution country w st Hmiss) as (b' & evs & Hrun & _ & Hn).
  assert (Hadd : added st (snd second)
                 = Sleep (uniform 1 3 (random w (draws st))) :: evs).
  { apply added_app. rewrite Ht. unfold first. now rewrite Hrun. }
  rewrite Hadd. exact Hn.
Qed.

(** C7, as the code has it. The [False] of a failed lookup is stored in the
    cache exactly as a verdict is, by the same insertion and with no expiry:
    the next call with the same arguments returns that [False] without a
    delay and without contacting the registry, whatever the registry would
    answer by then. *)
Theorem failure_is_cached_like_a_verdict (institution country : pystr)
  (w w' : world) (st : state) (e : exn) :
  cache_get (institution, country) (cache st) = None ->
  fst (dispatch institution country w (after_delay w st)) = Raise e ->
  let first := check_accreditation institution country w st in
  let second := check_accreditation institution country w' (snd first) in
  fst first = Ok false
  /\ cache (snd first) = cache_put maxsize (institution, country) false (cache st)
  /\ fst second = Ok false
  /\ added (snd first) (snd second) = []
  /\ draws (snd second) = draws (snd first).
Proof.
  intros Hmiss Hraise first second.
  assert (Hfirst : fst first = Ok false
          /\ cache (snd first) = cache_put maxsize (institution, country) false (cache st)).
  { unfold first. rewrite (check_accreditation_miss _ _ w st Hmiss).
    destruct (dispatch institution country w (after_delay w st)) as [[b|e'] st1];
      simpl in Hraise; [discriminate|]. split; reflexivity. }
  destruct Hfirst as [Hv Hc].
  destruct (repeated_call_hits institution country w w' st)
    as (Hsame & Htrace & Hdraw).
  fold first in Hsame, Htrace, Hdraw. fold second in Hsame, Htrace, Hdraw.
  rewrite Hsame. repeat split; auto. now apply added_same.
Qed.

(** C8. A call that misses the cache first sleeps, once, and only then
    sends its requests; every call that misses does so, and a call that
    hits the cache adds no event at all. The delay is
    [random.uniform(1, 3)]: with [random.random()] in [0, 1) it lies
    between 1 and 3 and is [1 + 2 * random()] up to the rounding of the
    two float operations, at most [3 / 2^53]. So the delay is spread over
    [1, 3] as evenly as [random.random()] is over [0, 1): of the [2^53]
    values [random.random()] takes, the share that gives a delay of at most
    [t] is [(t - 1) / 2] to within [2^-51], for every [t] of [1, 3]. Both
    ends are reached: the draw 0 sleeps for 1 second and the largest draw,
    [1 - 2^-53], for exactly 3. *)
Theorem rate_limit_on_every_miss (institution country : pystr)
  (w : world) (st : state) :
  random_ok w ->
  let after := snd (check_accreditation institution country w st) in
  let u := random w (draws st) in
  (cache_get (institution, country) (cache st) = None ->
   exists d rest,
     added st after = Sleep d :: rest
     /\ d = uniform 1 3 u
     /\ 1 <= d /\ d <= 3
     /\ - (3 # 2 ^ 53) <= d - (1 + 2 * u) /\ d - (1 + 2 * u) <= 3 # 2 ^ 53
     /\ Forall (fun e => is_sleep e = false) rest
     /\ draws after = S (draws st))
  /\ (forall t, 1 <= t -> t <= 3 ->
      let at_most_t := share (fun u' => Qle_bool (uniform 1 3 u') t) in
      - (1 # 2 ^ 51) <= at_most_t - (t - 1) / 2
      /\ at_most_t - (t - 1) / 2 <= 1 # 2 ^ 51)
  /\ uniform 1 3 (random_value 0) == 1
  /\ uniform 1 3 (random_value (2 ^ 53 - 1)) == 3
  /\ (cache_get (institution, country) (cache st) <> None ->
      added st after = [] /\ draws after = draws st).
Proof.
  intros Hw after u. split; [|split; [|split; [|split]]].
  - intros Hmiss.
    destruct (miss_run institution country w st Hmiss) as (b & evs & Hrun & Hns & _).
    unfold after. rewrite Hrun; simpl.
    exists (uniform 1 3 u), evs.
    split; [apply added_app; reflexivity|]. split; [reflexivity|].
    destruct (Hw (draws st)) as [H0 H1].
    destruct (uniform_1_3 u H0 H1) as (Ha & Hb & Hc & Hd).
    repeat split; assumption.
  - intros t H1 H3. exact (uniform_1_3_law t H1 H3).
  - vm_compute. reflexivity.
  - vm_compute. reflexivity.
  - intros Hhit. destruct (cache_get (institution, country) (cache st)) as [v|] eqn:Hc;
      [|congruence].
    unfold after. rewrite (check_accreditation_hit _ _ w st v Hc); simpl.
    split; [now apply added_same|reflexivity].
Qed.

End Caching.

(** C4 refuted as stated: two calls for an Indian institution send two
    requests, the GET of the form and the POST of the search, not one; two
    calls for a country outside the six send none. *)
Lemma two_calls_two_requests :
  let R := sample_runtime in
  let w := india_world india_form (py "<p>MIT</p>") in
  let first := check_accreditation (py "MIT") (py "India") w init_state in
  let second := check_accreditation (py "MIT") (py "India") w (snd first) in
  let first' := check_accreditation (py "MIT") (py "France") w init_state in
  let second' := check_accreditation (py "MIT") (py "France") w (snd first') in
  fst first = Ok true
  /\ fst second = Ok true
  /\ filter is_http (trace (snd second))
     = [Http (mkRequest GET ugc_india_url []);
        Http (mkRequest POST ugc_india_url
                [(py "__VIEWSTATE", py "vs");
                 (py "__EVENTVALIDATION", py "ev");
                 (py "ctl00$ContentPlaceHolder1$txtCollegeName", py "MIT");
                 (py "ctl00$ContentPlaceHolder1$btnSearch", py "Search")])]
  /\ http_calls (trace (snd second)) = 2%nat
  /\ http_calls (trace (snd second')) = 0%nat.
Proof. vm_compute. repeat split. Qed.

Lemma second_call_served_from_cache_witness :
  let R := sample_runtime in
  let w := india_world india_form (py "<p>MIT</p>") in
  let first := check_accreditation (py "MIT") (py "India") w init_state in
  let second := check_accreditation (py "MIT") (py "India") outage (snd first) in
  fst second = fst first
  /\ added (snd first) (snd second) = []
  /\ (1 <= http_calls (added init_state (snd second)) <= 2)%nat.
Proof.
  intros R w first second.
  destruct (@second_call_served_from_cache R (py "MIT") (py "India") w outage
              init_state) as (Hv & Ha & _ & Hn).
  split; [exact Hv|]. split; [exact Ha|].
  exact (proj1 (Hn eq_refl) eq_refl).
Defined.

(** C7 refuted as stated: the [False] of a lookup made during an outage is
    kept in the cache as the [False] of an unlisted institution is, and is
    still returned, without any request, once the registry is back and
    would list the institution; other lookups in between do not change
    that. *)
Lemma outage_outlives_recovery :
  let R := sample_runtime in
  let recovered := serving 200 (py "<p>1 Treffer</p>") in
  let unlisted := serving 200 (py "<p>Keine Treffer gefunden</p>") in
  let first := check_accreditation tum (py "Germany") outage init_state in
  let second := check_accreditation tum (py "Germany") recovered (snd first) in
  let later :=
    run_calls [mkCall (py "MIT") (py "Nigeria") recovered;
               mkCall (py "MIT") (py "Germany") recovered] (snd second) in
  let third := check_accreditation tum (py "Germany") recovered later in
  fst first = Ok false
  /\ cache (snd first)
     = cache (snd (check_accreditation tum (py "Germany") unlisted init_state))
  /\ fst second = Ok false
  /\ trace (snd second) = trace (snd first)
  /\ fst third = Ok false
  /\ trace (snd third) = trace later
  /\ fst (check_accreditation tum (py "Germany") recovered init_state) = Ok true.
Proof. vm_compute. repeat split. Qed.

Lemma failure_is_cached_like_a_verdict_witness :
  let R := sample_runtime in
  let recovered := serving 200 (py "<p>1 Treffer</p>") in
  let first := check_accreditation tum (py "Germany") outage init_state in
  let second := check_accreditation tum (py "Germany") recovered (snd first) in
  fst first = Ok false
  /\ cache (snd first) = cache_put maxsize (tum, py "Germany") false []
  /\ fst second = Ok false
  /\ added (snd first) (snd second) = []
  /\ draws (snd second) = draws (snd first).
Proof.
  intros R recovered.
  exact (@failure_is_cached_like_a_verdict R tum (py "Germany") outage recovered
           init_state ConnectionError eq_refl eq_refl).
Defined.

Lemma half_random_ok : forall status page, random_ok (serving status page).
Proof. intros status page n. simpl. unfold half. split; lra. Qed.

Lemma rate_limit_on_every_miss_witness :
  let R := sample_runtime in
  let w := serving 200 (py "<p>1 Treffer</p>") in
  let first := snd (check_accreditation tum (py "Germany") w init_state) in
  let second := snd (check_accreditation tum (py "Germany") w first) in
  (exists d rest,
     added init_state first = Sleep d :: rest
     /\ d = uniform 1 3 (1 # 2)
     /\ 1 <= d /\ d <= 3
     /\ - (3 # 2 ^ 53) <= d - (1 + 2 * (1 # 2))
     /\ d - (1 + 2 * (1 # 2)) <= 3 # 2 ^ 53
     /\ Forall (fun e => is_sleep e = false) rest
     /\ draws first = 1%nat)
  /\ (- (1 # 2 ^ 51) <= share (fun u' => Qle_bool (uniform 1 3 u') 2) - (1 # 2)
      /\ share (fun u' => Qle_bool (uniform 1 3 u') 2) - (1 # 2) <= 1 # 2 ^ 51)
  /\ added first second = [] /\ draws second = draws first.
Proof.
  intros R w first second.
  pose proof (@rate_limit_on_every_miss R tum (py "Germany") w init_state
                (half_random_ok 200 _)) as H1.
  pose proof (@rate_limit_on_every_miss R tum (py "Germany") w first
                (half_random_ok 200 _)) as H2.
  split; [exact (proj1 H1 eq_refl)|].
  split.
  - assert (Hlaw := proj1 (proj2 H1) 2 ltac:(discriminate) ltac:(discriminate)).
    assert (E : (2 - 1) / 2 == 1 # 2) by reflexivity.
    cbv zeta in Hlaw. rewrite E in Hlaw. exact Hlaw.
  - apply (proj2 (proj2 (proj2 (proj2 H2)))). discriminate.
Defined.

(** ** The cache keeps the most recently used keys (C5) *)

Lemma keys_cache_remove k c : keys (cache_remove k c) = without k (keys c).
Proof.
  unfold keys, cache_remove, without.
  induction c as [|[k' v] c IH]; simpl; [reflexivity|].
  destruct (key_eqb k k'); simpl; now rewrite IH.
Qed.

Lemma cache_get_existsb k c :
  existsb (key_eqb k) (keys c) = match cache_get k c with Some _ => true | None => false end.
Proof.
  induction c as [|[k' v] c IH]; simpl; [reflexivity|].
  destruct (key_eqb k k'); simpl; auto.
Qed.

Lemma cache_get_None k c : cache_get k c = None <-> ~ In k (keys c).
Proof.
  induction c as [|[k' v] c IH]; simpl; [tauto|].
  destruct (key_eqb k k') eqn:E.
  - apply key_eqb_eq in E. subst. split; [discriminate|tauto].
  - apply key_eqb_neq in E. rewrite IH. split; [intros H [H'|H']; congruence|tauto].
Qed.

Lemma in_without k x l : In x (without k l) <-> In x l /\ x <> k.
Proof.
  unfold without. rewrite filter_In, negb_true_iff, key_eqb_neq.
  split; intros [H1 H2]; split; auto.
Qed.

Lemma without_notin k l : ~ In k l -> without k l = l.
Proof.
  intros Hk. unfold without. induction l as [|x l IH]; simpl; [reflexivity|].
  destruct (key_eqb k x) eqn:E.
  - apply key_eqb_eq in E. subst. exfalso. apply Hk. now left.
  - simpl. rewrite IH; [reflexivity|]. intros H. apply Hk. now right.
Qed.

Lemma in_firstn_in (n : nat) (x : key) (l : list key) : In x (firstn n l) -> In x l.
Proof.
  revert l; induction n as [|n IH]; intros [|y l]; simpl; try tauto.
  intros [H|H]; auto.
Qed.

Lemma NoDup_without k l : NoDup l -> NoDup (without k l).
Proof. intros H. unfold without. now apply NoDup_filter. Qed.

Lemma without_firstn_in k (r : list key) :
  NoDup r -> forall m, In k (firstn (S m) r) ->
  without k (firstn (S m) r) = firstn m (without k r).
Proof.
  induction 1 as [|x r Hx Hr IH]; intros m Hin; [destruct Hin|].
  change (firstn (S m) (x :: r)) with (x :: firstn m r) in *.
  unfold without in *; simpl.
  destruct (key_eqb k x) eqn:E; simpl.
  - apply key_eqb_eq in E. subst x.
    fold (without k (firstn m r)). fold (without k r).
    rewrite !without_notin; auto.
    intros H. apply Hx. eapply in_firstn_in; eauto.
  - apply key_eqb_neq in E.
    destruct Hin as [Hin|Hin]; [congruence|].
    destruct m as [|m]; [destruct Hin|].
    change (firstn (S m) (x :: filter (fun k' => negb (key_eqb k k')) r))
      with (x :: firstn m (filter (fun k' => negb (key_eqb k k')) r)).
    f_equal. now apply IH.
Qed.

Lemma firstn_without_notin k (r : list key) :
  forall n, ~ In k (firstn n r) -> firstn n (without k r) = firstn n r.
Proof.
  induction r as [|x r IH]; intros [|n] Hk; simpl; try reflexivity.
  simpl in Hk. unfold without; simpl.
  destruct (key_eqb k x) eqn:E.
  - apply key_eqb_eq in E. subst. exfalso. apply Hk. now left.
  - simpl. f_equal. apply IH. intros H. apply Hk. now right.
Qed.

Lemma existsb_key_in k l : existsb (key_eqb k) l = true <-> In k l.
Proof.
  rewrite existsb_exists. split.
  - intros [x [Hx E]]. apply key_eqb_eq in E. now subst.
  - intros H. exists k. split; [exact H|apply key_eqb_refl].
Qed.

(** The step of the cache, on the first [cap] keys of a list without
    duplicates, is the first [cap] keys of the list with [k] moved to its
    front. *)
Lemma lru_keys_firstn (cap : nat) (k : key) (r : list key) :
  (0 < cap)%nat -> NoDup r ->
  lru_keys cap k (firstn cap r) = firstn cap (k :: without k r).
Proof.
  intros Hcap Hr. destruct cap as [|m]; [lia|].
  change (firstn (S m) (k :: without k r)) with (k :: firstn m (without k r)).
  unfold lru_keys.
  destruct (existsb (key_eqb k) (firstn (S m) r)) eqn:Hex.
  - apply existsb_key_in in Hex. f_equal. now apply without_firstn_in.
  - assert (Hk : ~ In k (firstn (S m) r)).
    { intros H. apply existsb_key_in in H. congruence. }
    destruct (Nat.ltb (length (firstn (S m) r)) (S m)) eqn:Hlen.
    + apply Nat.ltb_lt in Hlen. rewrite length_firstn in Hlen.
      assert (Hshort : (length r <= m)%nat) by lia.
      rewrite (firstn_all2 (n := S m) r) in * by lia.
      rewrite without_notin by assumption.
      now rewrite firstn_all2.
    + apply Nat.ltb_ge in Hlen. rewrite length_firstn in Hlen.
      rewrite removelast_firstn by lia.
      f_equal. symmetry. apply firstn_without_notin.
      intros H. apply Hk.
      clear - H. revert m H. induction r as [|x r IH]; intros [|m] H; simpl in *; try tauto.
      destruct H as [H|H]; auto.
Qed.

Lemma NoDup_most_recent_first past : NoDup (most_recent_first past).
Proof.
  induction past as [|k older IH]; simpl; constructor.
  - rewrite in_without. tauto.
  - now apply NoDup_without.
Qed.

Lemma in_most_recent_first k past : In k (most_recent_first past) <-> In k past.
Proof.
  induction past as [|x older IH]; simpl; [tauto|].
  rewrite in_without, IH.
  destruct (key_eqb x k) eqn:E.
  - apply key_eqb_eq in E. tauto.
  - apply key_eqb_neq in E. split; [tauto|]. intros [H|H]; [now left|].
    right. split; [exact H|congruence].
Qed.

(** With no key repeated, the order of last use is the order of the calls,
    latest first. *)
Lemma most_recent_first_NoDup past : NoDup past -> most_recent_first past = past.
Proof.
  induction 1 as [|k older Hk Hn IH]; simpl; [reflexivity|].
  rewrite IH, without_notin; auto.
Qed.

(** The order of last use is sorted by age. *)
Lemma age_in k past : In k past -> exists i, age k past = Some i.
Proof.
  induction past as [|x older IH]; simpl; [tauto|].
  intros H. destruct (key_eqb k x) eqn:E; [eauto|].
  apply key_eqb_neq in E.
  destruct H as [H|H]; [congruence|].
  destruct (IH H) as [i ->]. simpl; eauto.
Qed.

Lemma used_after_older k past a b :
  a <> k -> b <> k -> used_after past a b -> used_after (k :: past) a b.
Proof.
  intros Ha Hb (i & j & Hi & Hj & Hlt).
  exists (S i), (S j). simpl.
  apply key_eqb_neq in Ha, Hb. rewrite Ha, Hb, Hi, Hj. simpl.
  repeat split; lia.
Qed.

Lemma StronglySorted_filter {A} (Rel : A -> A -> Prop) (f : A -> bool) (l : list A) :
  StronglySorted Rel l -> StronglySorted Rel (filter f l).
Proof.
  induction 1 as [|a l Hs IH Hf]; simpl; [constructor|].
  destruct (f a); [|exact IH].
  constructor; [exact IH|].
  rewrite Forall_forall in *. intros x Hx. apply filter_In in Hx. now apply Hf.
Qed.

Lemma StronglySorted_firstn {A} (Rel : A -> A -> Prop) (n : nat) (l : list A) :
  StronglySorted Rel l -> StronglySorted Rel (firstn n l).
Proof.
  intros H. revert n. induction H as [|a l Hs IH Hf]; intros [|n]; simpl;
    try constructor; [apply IH|].
  rewrite Forall_forall in *. intros x Hx. apply Hf.
  clear - Hx. revert n Hx. induction l as [|y l IHl]; intros [|n] Hx; simpl in *; try tauto.
  destruct Hx as [Hx|Hx]; eauto.
Qed.

Lemma StronglySorted_weaken {A} (Rel Rel' : A -> A -> Prop) (l : list A) :
  (forall a b, In a l -> In b l -> Rel a b -> Rel' a b) ->
  StronglySorted Rel l -> StronglySorted Rel' l.
Proof.
  intros Himp H. induction H as [|a l Hs IH Hf]; constructor.
  - apply IH. intros x y Hx Hy. apply Himp; now right.
  - rewrite Forall_forall in *. intros x Hx.
    apply Himp; [now left|now right|now apply Hf].
Qed.

Lemma StronglySorted_last {A} (Rel : A -> A -> Prop) (l : list A) (x : A) :
  StronglySorted Rel (l ++ [x]) -> forall a, In a l -> Rel a x.
Proof.
  induction l as [|y l IH]; simpl; intros H a Ha; [destruct Ha|].
  apply StronglySorted_inv in H as [Hs Hf].
  destruct Ha as [<-|Ha]; [|now apply IH].
  rewrite Forall_forall in Hf. apply Hf. rewrite in_app_iff. right. now left.
Qed.

Lemma most_recent_first_sorted past :
  StronglySorted (used_after past) (most_recent_first past).
Proof.
  induction past as [|k older IH]; simpl; constructor.
  - apply StronglySorted_weaken with (Rel := used_after older).
    + intros a b Ha Hb. apply in_without in Ha, Hb.
      apply used_after_older; tauto.
    + now apply StronglySorted_filter.
  - rewrite Forall_forall. intros b Hb. apply in_without in Hb as [Hb Hne].
    apply (proj1 (in_most_recent_first b older)) in Hb.
    destruct (age_in b older Hb) as [j Hj].
    exists 0%nat, (S j). simpl. rewrite key_eqb_refl.
    apply key_eqb_neq in Hne. rewrite Hne, Hj. simpl.
    repeat split; lia.
Qed.

Lemma keys_removelast (c : list (key * bool)) :
  keys (removelast c) = removelast (keys c).
Proof.
  unfold keys. induction c as [|e c IH]; simpl; [reflexivity|].
  destruct c as [|e' c]; [reflexivity|].
  simpl in *. now rewrite IH.
Qed.

Section Eviction.

Context {R : Runtime}.

Lemma run_call_keys (st : state) (c : call) :
  keys (cache (run_call st c)) = lru_keys maxsize (call_key c) (keys (cache st)).
Proof.
  unfold run_call, lru_keys, call_key.
  rewrite cache_get_existsb.
  destruct (cache_get (call_institution c, call_country c) (cache st)) as [v|] eqn:Hc.
  - rewrite (check_accreditation_hit _ _ (call_world c) st v Hc); simpl.
    now rewrite keys_cache_remove.
  - destruct (miss_run (call_institution c) (call_country c) (call_world c) st Hc)
      as (b & evs & -> & _); simpl.
    unfold cache_put. rewrite Hc.
    unfold keys at 2. rewrite length_map.
    destruct (Nat.ltb (length (cache st)) maxsize); simpl; [reflexivity|].
    now rewrite keys_removelast.
Qed.

Lemma run_calls_snoc (cs : list call) (c : call) (st : state) :
  run_calls (cs ++ [c]) st = run_call (run_calls cs st) c.
Proof. unfold run_calls. now rewrite fold_left_app. Qed.

(** From the empty cache, the keys cached after any calls are the last
    [maxsize] keys used, most recent first. *)
Lemma run_calls_keys (cs : list call) :
  keys (cache (run_calls cs init_state))
  = firstn maxsize (most_recent_first (rev (map call_key cs))).
Proof.
  induction cs as [|c cs IH] using rev_ind; [reflexivity|].
  rewrite run_calls_snoc, run_call_keys, IH.
  rewrite map_app, rev_app_distr. cbn [map rev app most_recent_first].
  apply lru_keys_firstn.
  - unfold maxsize; lia.
  - apply NoDup_most_recent_first.
Qed.

(** C5. Starting from the empty cache and whatever the calls, the cache
    never holds more than 1000 entries, and its keys are the 1000 most
    recently used ones, most recent first. A call with a new key on a full
    cache puts the new key in front, keeps all the others but one, and drops
    exactly the last key of that order, the least recently used one: every
    key kept was used after it. So after calls with 1001 distinct keys the
    key of the first call is the one evicted. *)
Theorem cache_is_lru (cs : list call) :
  let c := cache (run_calls cs init_state) in
  (length c <= 1000)%nat
  /\ keys c = firstn 1000 (most_recent_first (rev (map call_key cs)))
  /\ (forall new,
        length c = 1000%nat -> ~ In (call_key new) (keys c) ->
        exists kept evicted,
          keys c = kept ++ [evicted]
          /\ keys (cache (run_calls (cs ++ [new]) init_state)) = call_key new :: kept
          /\ ~ In evicted (call_key new :: kept)
          /\ forall k, In k kept -> used_after (rev (map call_key cs)) k evicted)
  /\ (forall first rest,
        cs = first :: rest -> length cs = 1001%nat -> NoDup (map call_key cs) ->
        keys c = rev (map call_key rest) /\ ~ In (call_key first) (keys c)).
Proof.
  intros c. change 1000%nat with maxsize.
  assert (Hkeys : keys c = firstn maxsize (most_recent_first (rev (map call_key cs))))
    by apply run_calls_keys.
  assert (Hlen : length c = length (keys c)) by (unfold keys; now rewrite length_map).
  assert (Hnodup : NoDup (keys c)).
  { rewrite Hkeys.
    pose proof (NoDup_most_recent_first (rev (map call_key cs))) as Hn.
    rewrite <- (firstn_skipn maxsize) in Hn. now apply NoDup_app_remove_r in Hn. }
  split; [|split; [exact Hkeys|split]].
  - rewrite Hlen, Hkeys, length_firstn. apply Nat.le_min_l.
  - intros new Hfull Hnew.
    destruct (exists_last (l := keys c)) as (kept & evicted & Hsplit).
    { intros E. rewrite Hlen, E in Hfull. discriminate Hfull. }
    exists kept, evicted. split; [exact Hsplit|].
    assert (Hstep : keys (cache (run_calls (cs ++ [new]) init_state))
                    = call_key new :: kept).
    { rewrite run_calls_snoc, run_call_keys. fold c. unfold lru_keys.
      destruct (existsb (key_eqb (call_key new)) (keys c)) eqn:Hex.
      - apply existsb_key_in in Hex. contradiction.
      - rewrite <- Hlen, Hfull, Nat.ltb_irrefl.
        now rewrite Hsplit, removelast_last. }
    split; [exact Hstep|]. split.
    + rewrite Hsplit in Hnodup, Hnew.
      apply NoDup_remove_2 in Hnodup. rewrite app_nil_r in Hnodup.
      intros [E|Hin]; [|contradiction].
      apply Hnew. rewrite in_app_iff. right. left. now symmetry.
    + apply StronglySorted_last. rewrite <- Hsplit, Hkeys.
      apply StronglySorted_firstn, most_recent_first_sorted.
  - intros first rest -> Hn Hd.
    simpl in Hn. injection Hn as Hn.
    assert (Hrev : most_recent_first (rev (map call_key (first :: rest)))
                   = rev (map call_key rest) ++ [call_key first]).
    { rewrite most_recent_first_NoDup by now apply NoDup_rev. reflexivity. }
    rewrite Hkeys, Hrev.
    assert (Hl : length (rev (map call_key rest)) = maxsize)
      by now rewrite length_rev, length_map.
    rewrite firstn_app, Hl, Nat.sub_diag, firstn_O, app_nil_r.
    assert (Hall : firstn maxsize (rev (map call_key rest)) = rev (map call_key rest))
      by (rewrite <- Hl; apply firstn_all).
    rewrite Hall.
    split; [reflexivity|].
    rewrite <- in_rev. simpl in Hd. now apply NoDup_cons_iff in Hd.
Qed.

End Eviction.

Lemma numbered_calls_NoDup start len :
  NoDup (map call_key (numbered_calls start len)).
Proof.
  unfold numbered_calls. rewrite map_map.
  apply NoDup_map_NoDup_ForallPairs; [|apply seq_NoDup].
  intros a b _ _ H. unfold call_key, numbered_call in H; simpl in H.
  injection H as H. now apply Nat2N.inj.
Qed.

Lemma cache_is_lru_witness :
  let R := sample_runtime in
  let full := cache (run_calls (numbered_calls 0 1000) init_state) in
  let c := cache (run_calls (numbered_calls 0 1001) init_state) in
  (exists kept evicted,
     keys full = kept ++ [evicted]
     /\ keys (cache (run_calls (numbered_calls 0 1000 ++ [numbered_call 1000])
                       init_state))
        = call_key (numbered_call 1000) :: kept
     /\ ~ In evicted (call_key (numbered_call 1000) :: kept)
     /\ forall k, In k kept ->
          used_after (rev (map call_key (numbered_calls 0 1000))) k evicted)
  /\ keys c = rev (map call_key (numbered_calls 1 1000))
  /\ ~ In (call_key (numbered_call 0)) (keys c).
Proof.
  intros R full c. split.
  - destruct (@cache_is_lru R (numbered_calls 0 1000)) as (_ & _ & H & _).
    apply (H (numbered_call 1000)).
    + vm_compute. reflexivity.
    + apply cache_get_None. vm_compute. reflexivity.
  - destruct (@cache_is_lru R (numbered_calls 0 1001)) as (_ & _ & _ & H).
    apply (H (numbered_call 0) (numbered_calls 1 1000)).
    + reflexivity.
    + unfold numbered_calls. now rewrite length_map, length_seq.
    + apply numbered_calls_NoDup.
Defined.

(** ** Pakistan: the institution name is a pattern (C10) *)

Section Pattern.

Context {R : Runtime}.

(** An institution name that is a pattern of the fragment. *)
Lemma re_search_fragment pattern ts r txt w st :
  tokenize pattern = Some ts -> parse_tokens ts (None, Eps) [] = Ok r ->
  re_search pattern txt w st = (Ok (search r txt), st).
Proof. intros Ht Hp. unfold re_search. now rewrite Ht, Hp. Qed.

(** An institution name that is not a valid pattern. *)
Lemma re_search_invalid pattern ts e txt w st :
  tokenize pattern = Some ts -> parse_tokens ts (None, Eps) [] = Raise e ->
  re_search pattern txt w st = (Raise e, st).
Proof. intros Ht Hp. unfold re_search. now rewrite Ht, Hp. Qed.

(** The adapter on a listing with a single university block. *)
Lemma check_hec_pakistan_single institution w st resp d :
  http w (mkRequest GET hec_pakistan_url []) = Ok resp ->
  select_class (html_parser (text resp)) (py "div") (py "university-name") = [d] ->
  fst (check_hec_pakistan institution w st)
  = fst (re_search institution (get_text d) w st).
Proof.
  intros Hget Hsel.
  unfold check_hec_pakistan, requests_get, send. unfold bind at 1.
  rewrite Hget, Hsel. simpl. unfold bind.
  pose proof (stateless_re_search institution (get_text d) w
                (mkState (cache st)
                   (trace st ++ [Http (mkRequest GET hec_pakistan_url [])]) (draws st)))
    as Hs.
  unfold re_search in *.
  destruct (tokenize institution) as [ts|].
  - destruct (parse_tokens ts (None, Eps) []) as [r|e]; simpl; [|reflexivity].
    destruct (search r (get_text d)); reflexivity.
  - destruct (re_other institution (get_text d)) as [[|]|e]; reflexivity.
Qed.

(** [re.search] looks at its two arguments only. *)
Lemma re_search_run pattern txt (w w' : world) (st st' : state) :
  re_search pattern txt w' st' = (fst (re_search pattern txt w st), st').
Proof.
  unfold re_search. destruct (tokenize pattern) as [ts|].
  - destruct (parse_tokens ts (None, Eps) []); reflexivity.
  - destruct (re_other pattern txt); reflexivity.
Qed.

(** [any] stops at the first exception. *)
Lemma any_M_raises {A} (f : A -> M bool) (before : list A) (d : A)
  (rest : list A) (e : exn) (w : world) (st : state) :
  (forall b, In b before -> f b w st = (Ok false, st)) ->
  f d w st = (Raise e, st) ->
  any_M f (before ++ d :: rest) w st = (Raise e, st).
Proof.
  intros Hb Hd. induction before as [|b before IH]; simpl; unfold bind.
  - now rewrite Hd.
  - rewrite (Hb b (or_introl eq_refl)). apply IH.
    intros b' Hin. apply Hb. now right.
Qed.

Lemma tokenize_opens (n : nat) :
  tokenize (repeat (chr "(") n) = Some (repeat TOpen n).
Proof.
  induction n as [|n IH]; [reflexivity|].
  change (tokenize (repeat (chr "(") (S n)))
    with (option_map (cons TOpen) (tokenize (repeat (chr "(") n))).
  now rewrite IH.
Qed.

(** One group too many is a [RecursionError], raised where that group
    opens. *)
Lemma parse_tokens_opens (n : nat) (cur : frame) (stack : list frame) :
  (length stack <= max_nesting)%nat -> (max_nesting < length stack + n)%nat ->
  parse_tokens (repeat TOpen n) cur stack = Raise RecursionError.
Proof.
  revert cur stack. induction n as [|n IH]; intros cur stack Hle Hlt; [lia|].
  cbn [repeat parse_tokens].
  destruct (Nat.ltb (length stack) max_nesting) eqn:Hroom; [|reflexivity].
  apply Nat.ltb_lt in Hroom. apply IH; simpl; lia.
Qed.

(** C10, as the code has it. The Pakistan adapter searches each university
    block for the institution name taken as a pattern, ignoring case, and
    not for the name itself. The two differ: the name "a.c" is found in a
    block "abc" that does not contain it, and the name "University (Lahore)"
    is not found in the very block "University (Lahore)". Whenever the
    search raises an exception on a block, whatever the name and whatever
    the exception, and has found nothing in the blocks before it, the
    adapter raises it and [check_accreditation] turns it into [False],
    reporting it and keeping the [False] in the cache. Names that are not
    valid patterns raise on any text, so on the first block: "(" and ")"
    raise the error of [re], and so does every name of the fragment that
    does not parse; a name of more opening parentheses than the parser has
    room for raises [RecursionError]. When the fetched listing has no
    university block nothing is searched, nothing is raised, and the result
    is [False] all the same. *)
Theorem hec_pakistan_name_is_a_pattern (w : world) (st : state) (resp : response) :
  http w (mkRequest GET hec_pakistan_url []) = Ok resp ->
  let blocks :=
    select_class (html_parser (text resp)) (py "div") (py "university-name") in
  (forall d, blocks = [d] -> get_text d = py "abc" ->
     fst (check_hec_pakistan (py "a.c") w st) = Ok true
     /\ contains (lower (py "a.c")) (lower (get_text d)) = false)
  /\ ((1 <= max_nesting)%nat ->
      forall d, blocks = [d] -> get_text d = py "University (Lahore)" ->
      fst (check_hec_pakistan (py "University (Lahore)") w st) = Ok false
      /\ contains (lower (py "University (Lahore)")) (lower (get_text d)) = true)
  /\ (forall institution before d rest e,
      blocks = before ++ d :: rest ->
      (forall b, In b before ->
         fst (re_search institution (get_text b) w st) = Ok false) ->
      fst (re_search institution (get_text d) w st) = Raise e ->
      fst (check_hec_pakistan institution w st) = Raise e
      /\ (cache_get (institution, py "Pakistan") (cache st) = None ->
          check_accreditation institution (py "Pakistan") w st
          = (Ok false,
             mkState (cache_put maxsize (institution, py "Pakistan") false (cache st))
                     (trace st ++ [Sleep (uniform 1 3 (random w (draws st)));
                                   Http (mkRequest GET hec_pakistan_url []);
                                   StError e])
                     (S (draws st)))))
  /\ (forall institution,
      blocks = [] ->
      fst (check_hec_pakistan institution w st) = Ok false
      /\ (cache_get (institution, py "Pakistan") (cache st) = None ->
          check_accreditation institution (py "Pakistan") w st
          = (Ok false,
             mkState (cache_put maxsize (institution, py "Pakistan") false (cache st))
                     (trace st ++ [Sleep (uniform 1 3 (random w (draws st)));
                                   Http (mkRequest GET hec_pakistan_url [])])
                     (S (draws st)))))
  /\ (forall txt,
      ((1 <= max_nesting)%nat ->
       fst (re_search (py "(") txt w st) = Raise (ReError MissingParenthesis))
      /\ fst (re_search (py ")") txt w st) = Raise (ReError UnbalancedParenthesis)
      /\ (forall institution ts e,
          tokenize institution = Some ts ->
          parse_tokens ts (None, Eps) [] = Raise e ->
          fst (re_search institution txt w st) = Raise e)
      /\ (forall n, (max_nesting < n)%nat ->
          fst (re_search (repeat (chr "(") n) txt w st) = Raise RecursionError)).
Proof.
  intros Hget blocks.
  assert (Hrun : forall institution st0,
    check_hec_pakistan institution w st0
    = any_M (fun div => re_search institution (get_text div)) blocks w
        (sent (mkRequest GET hec_pakistan_url []) st0)).
  { intros institution st0.
    unfold check_hec_pakistan, requests_get, send. unfold bind at 1.
    now rewrite Hget. }
  split; [|split; [|split; [|split]]].
  - intros d Hd Ht.
    rewrite (check_hec_pakistan_single (py "a.c") w st resp d Hget Hd), Ht.
    split; reflexivity.
  - intros Hroom d Hd Ht.
    rewrite (check_hec_pakistan_single (py "University (Lahore)") w st resp d Hget Hd), Ht.
    destruct max_nesting as [|room] eqn:Hmax; [lia|].
    split; [|reflexivity].
    unfold re_search.
    change (tokenize (py "University (Lahore)"))
      with (Some (map TChr (py "University ") ++ [TOpen]
                  ++ map TChr (py "Lahore") ++ [TClose])).
    cbn -[Nat.ltb max_nesting search]. rewrite Hmax. reflexivity.
  - intros institution before d rest e Hblocks Hbefore Hraise.
    assert (Hany : forall st0,
      check_hec_pakistan institution w st0
      = (Raise e, sent (mkRequest GET hec_pakistan_url []) st0)).
    { intros st0. rewrite Hrun, Hblocks. apply any_M_raises.
      - intros b Hin. rewrite (re_search_run institution (get_text b) w w st).
        now rewrite (Hbefore b Hin).
      - rewrite (re_search_run institution (get_text d) w w st).
        now rewrite Hraise. }
    split; [now rewrite Hany|].
    intros Hmiss.
    rewrite (check_accreditation_miss _ _ w st Hmiss).
    change (dispatch institution (py "Pakistan"))
      with (check_hec_pakistan institution).
    rewrite Hany. unfold stored, reported, sent, after_delay; simpl.
    now rewrite <- !app_assoc.
  - intros institution Hnil.
    assert (Hany : forall st0,
      check_hec_pakistan institution w st0
      = (Ok false, sent (mkRequest GET hec_pakistan_url []) st0)).
    { intros st0. rewrite Hrun, Hnil. reflexivity. }
    split; [now rewrite Hany|].
    intros Hmiss.
    rewrite (check_accreditation_miss _ _ w st Hmiss).
    change (dispatch institution (py "Pakistan"))
      with (check_hec_pakistan institution).
    rewrite Hany. unfold stored, sent, after_delay; simpl.
    now rewrite <- !app_assoc.
  - intros txt. split; [|split; [|split]].
    + intros Hroom. destruct max_nesting as [|room] eqn:Hmax; [lia|].
      unfold re_search.
      change (tokenize (py "(")) with (Some [TOpen]).
      cbn -[Nat.ltb max_nesting]. rewrite Hmax. reflexivity.
    + reflexivity.
    + intros institution ts e Htok Hparse.
      now rewrite (re_search_invalid institution ts e txt w st Htok Hparse).
    + intros n Hn. unfold re_search.
      rewrite tokenize_opens, (parse_tokens_opens n (None, Eps) []); simpl; try lia.
      reflexivity.
Qed.

End Pattern.

(** C10 refuted as stated: on a listing without any university block the
    name "(", which is not a valid pattern, raises nothing; the adapter
    returns [False] and no error is reported. *)
Lemma invalid_pattern_without_error :
  let R := sample_runtime in
  let w := serving 200 hec_empty_page in
  fst (re_search (py "(") (py "abc") w init_state) = Raise (ReError MissingParenthesis)
  /\ check_hec_pakistan (py "(") w init_state
     = (Ok false,
        mkState [] [Http (mkRequest GET hec_pakistan_url [])] 0)
  /\ check_accreditation (py "(") (py "Pakistan") w init_state
     = (Ok false,
        mkState [((py "(", py "Pakistan"), false)]
                [Sleep (uniform 1 3 (1 # 2));
                 Http (mkRequest GET hec_pakistan_url [])] 1).
Proof. vm_compute. repeat split. Qed.

Lemma hec_pakistan_name_is_a_pattern_witness :
  let R := sample_runtime in
  fst (check_hec_pakistan (py "a.c") (serving 200 (hec_page "abc")) init_state)
  = Ok true
  /\ contains (lower (py "a.c")) (lower (py "abc")) = false
  /\ fst (check_hec_pakistan (py "University (Lahore)")
            (serving 200 (hec_page "University (Lahore)")) init_state)
     = Ok false
  /\ contains (lower (py "University (Lahore)")) (lower (py "University (Lahore)"))
     = true
  /\ check_accreditation (py "(") (py "Pakistan") (serving 200 (hec_page "abc"))
       init_state
     = (Ok false,
        mkState [((py "(", py "Pakistan"), false)]
                [Sleep (uniform 1 3 (1 # 2));
                 Http (mkRequest GET hec_pakistan_url []);
                 StError (ReError MissingParenthesis)] 1)
  /\ check_accreditation (py "*") (py "Pakistan") (serving 200 (hec_page "abc"))
       init_state
     = (Ok false,
        mkState [((py "*", py "Pakistan"), false)]
                [Sleep (uniform 1 3 (1 # 2));
                 Http (mkRequest GET hec_pakistan_url []);
                 StError (ReError OtherReError)] 1)
  /\ fst (re_search (repeat (chr "(") 401) (py "abc") (serving 200 (hec_page "abc"))
            init_state)
     = Raise RecursionError.
Proof.
  intros R.
  destruct (@hec_pakistan_name_is_a_pattern R (serving 200 (hec_page "abc")) init_state
              (mkResponse 200 (hec_page "abc")) eq_refl)
    as (Hdot & _ & Hbad & _ & Hnames).
  destruct (@hec_pakistan_name_is_a_pattern R
              (serving 200 (hec_page "University (Lahore)")) init_state
              (mkResponse 200 (hec_page "University (Lahore)")) eq_refl)
    as (_ & Hparen & _).
  destruct (Hdot _ eq_refl eq_refl) as [Hdot1 Hdot2].
  destruct (Hparen ltac:(simpl; lia) _ eq_refl eq_refl) as [Hparen1 Hparen2].
  destruct (Hbad (py "(") [] _ [] (ReError MissingParenthesis) eq_refl
              (fun b (H : In b []) => match H with end) eq_refl)
    as [_ Hcall].
  destruct (Hbad (py "*") [] _ [] (ReError OtherReError) eq_refl
              (fun b (H : In b []) => match H with end) eq_refl)
    as [_ Hstar].
  destruct (Hnames (py "abc")) as (_ & _ & _ & Hdeep).
  split; [exact Hdot1|]. split; [exact Hdot2|].
  split; [exact Hparen1|]. split; [exact Hparen2|].
  split; [exact (Hcall eq_refl)|]. split; [exact (Hstar eq_refl)|].
  exact (Hdeep 401%nat ltac:(simpl; lia)).
Defined.

(** * Properties of the functions around the checker *)

(** ** Document processing *)

Lemma all_strings_map_Some (texts : list pystr) :
  all_strings (map Some texts) = Some texts.
Proof.
  induction texts as [|x texts IH]; simpl; [reflexivity|]. now rewrite IH.
Qed.

Lemma all_strings_None (items : list (option pystr)) :
  In None items -> all_strings items = None.
Proof.
  induction items as [|[x|] items IH]; simpl; intros H; try tauto.
  destruct H as [H|H]; [discriminate|]. now rewrite IH.
Qed.

Section Extraction.

Context {D : Documents}.

(** X1. [extract_text] never raises and touches neither the network, the
    clock nor the cache: whatever the libraries do with the file, it returns
    a value, and either adds nothing to the trace or reports one exception
    through [st.error] and returns [None]. *)
Theorem extract_text_contains_failures (uploaded : uploaded_file)
  (country : pystr) (w : world) (st : state) :
  exists r evs,
    extract_text uploaded country w st
    = (Ok r, mkState (cache st) (trace st ++ evs) (draws st))
    /\ (evs = [] \/ exists e, evs = [StError e] /\ r = None).
Proof.
  assert (Hsame : forall r : option pystr,
            (Ok r, st) = (Ok r, mkState (cache st) (trace st ++ []) (draws st))).
  { intros r. rewrite app_nil_r. now destruct st. }
  unfold extract_text, try_except, bind, lift, st_error, emit, ret.
  destruct (str_eqb (file_type uploaded) pdf_type).
  { destruct (pdf_pages (file_bytes uploaded)) as [pages|e];
      [|exists None, [StError e]; split; eauto].
    destruct (collect pages) as [items|e];
      [|exists None, [StError e]; split; eauto].
    destruct (str_join (py " ") items) as [s|e];
      [|exists None, [StError e]; split; eauto].
    exists (Some s), []. split; [apply Hsame|now left]. }
  destruct (str_eqb (file_type uploaded) docx_type).
  { destruct (docx_paragraphs (file_bytes uploaded)) as [ps|e];
      [|exists None, [StError e]; split; eauto].
    eexists _, []. split; [apply Hsame|now left]. }
  destruct (startswith (py "image") (file_type uploaded)).
  { destruct (image_open (file_bytes uploaded)) as [img|e];
      [|exists None, [StError e]; split; eauto].
    destruct (image_to_string img _) as [s|e];
      [|exists None, [StError e]; split; eauto].
    exists (Some s), []. split; [apply Hsame|now left]. }
  exists None, []. split; [apply Hsame|now left].
Qed.

(** X2. A file whose type is neither the PDF type, nor the Word type, nor
    starts with "image" gives [None] silently: no library is asked, nothing
    is reported, the state is unchanged. *)
Theorem extract_text_unsupported_type (uploaded : uploaded_file)
  (country : pystr) (w : world) (st : state) :
  file_type uploaded <> pdf_type ->
  file_type uploaded <> docx_type ->
  startswith (py "image") (file_type uploaded) = false ->
  extract_text uploaded country w st = (Ok None, st).
Proof.
  intros Hpdf Hdocx Himg. unfold extract_text, try_except.
  apply str_eqb_neq in Hpdf, Hdocx. now rewrite Hpdf, Hdocx, Himg.
Qed.

(** X3. For a PDF whose pages all have text the result is the texts of the
    pages joined by single spaces; if the text of some page is [None] the
    join raises a [TypeError] and the whole document gives [None], the
    error being reported. *)
Theorem extract_text_pdf (uploaded : uploaded_file) (country : pystr)
  (w : world) (st : state) (pages : list (outcome (option pystr)))
  (items : list (option pystr)) :
  file_type uploaded = pdf_type ->
  pdf_pages (file_bytes uploaded) = Ok pages ->
  collect pages = Ok items ->
  (forall texts, items = map Some texts ->
     extract_text uploaded country w st = (Ok (Some (join (py " ") texts)), st))
  /\ (In None items ->
     extract_text uploaded country w st = (Ok None, reported TypeError st)).
Proof.
  intros Htype Hpages Hitems.
  assert (Hrun : extract_text uploaded country w st
                 = match str_join (py " ") items with
                   | Ok s => (Ok (Some s), st)
                   | Raise e => (Ok None, reported e st)
                   end).
  { unfold extract_text, try_except, bind, lift.
    rewrite Htype, str_eqb_refl, Hpages, Hitems.
    destruct (str_join (py " ") items); reflexivity. }
  rewrite Hrun. unfold str_join. split.
  - intros texts ->. now rewrite all_strings_map_Some.
  - intros Hnone. now rewrite all_strings_None.
Qed.

(** X4. The country matters to [extract_text] only for an image, and there
    only as being "Saudi Arabia" or not: PDF and Word files are read the
    same way for every country, and images the same way for all countries
    other than "Saudi Arabia" (for which the OCR language is "ara" instead
    of "eng"). *)
Theorem extract_text_country (uploaded : uploaded_file) (c1 c2 : pystr)
  (w : world) (st : state) :
  (file_type uploaded = pdf_type \/ file_type uploaded = docx_type
   \/ startswith (py "image") (file_type uploaded) = false ->
   extract_text uploaded c1 w st = extract_text uploaded c2 w st)
  /\ (c1 <> py "Saudi Arabia" -> c2 <> py "Saudi Arabia" ->
      extract_text uploaded c1 w st = extract_text uploaded c2 w st)
  /\ (forall img,
      file_type uploaded <> pdf_type -> file_type uploaded <> docx_type ->
      startswith (py "image") (file_type uploaded) = true ->
      image_open (file_bytes uploaded) = Ok img ->
      extract_text uploaded c1 w st
      = match image_to_string img (if str_eqb c1 (py "Saudi Arabia")
                                   then py "ara" else py "eng") with
        | Ok s => (Ok (Some s), st)
        | Raise e => (Ok None, reported e st)
        end).
Proof.
  split; [|split].
  - intros H. unfold extract_text, try_except.
    destruct (str_eqb (file_type uploaded) pdf_type) eqn:Hpdf; [reflexivity|].
    destruct (str_eqb (file_type uploaded) docx_type) eqn:Hdocx; [reflexivity|].
    destruct H as [H|[H|H]].
    + apply str_eqb_eq in H. congruence.
    + apply str_eqb_eq in H. congruence.
    + now rewrite H.
  - intros H1 H2. unfold extract_text.
    apply str_eqb_neq in H1, H2. now rewrite H1, H2.
  - intros img Hpdf Hdocx Himg Hopen.
    unfold extract_text, try_except, bind, lift.
    apply str_eqb_neq in Hpdf, Hdocx. rewrite Hpdf, Hdocx, Himg, Hopen.
    destruct (image_to_string img _); reflexivity.
Qed.

End Extraction.

Lemma extract_text_unsupported_type_witness :
  extract_text (D := sample_documents) (mkUpload (py "text/plain") (py "GPA 3.9"))
    (py "India") outage init_state
  = (Ok None, init_state).
Proof.
  apply (@extract_text_unsupported_type sample_documents
           (mkUpload (py "text/plain") (py "GPA 3.9")) (py "India") outage init_state).
  - discriminate.
  - discriminate.
  - reflexivity.
Defined.

Lemma extract_text_pdf_witness :
  let D := sample_documents in
  extract_text (mkUpload pdf_type (py "ab")) (py "India") outage init_state
  = (Ok (Some (py "a b")), init_state)
  /\ extract_text (mkUpload pdf_type [97%N; 0%N; 98%N]) (py "India") outage init_state
     = (Ok None, reported TypeError init_state).
Proof.
  intros D. split.
  - exact (proj1 (@extract_text_pdf D (mkUpload pdf_type (py "ab")) (py "India")
                    outage init_state _ _ eq_refl eq_refl eq_refl)
             [py "a"; py "b"] eq_refl).
  - apply (proj2 (@extract_text_pdf D (mkUpload pdf_type [97%N; 0%N; 98%N]) (py "India")
                    outage init_state _ _ eq_refl eq_refl eq_refl)).
    simpl. tauto.
Defined.

Lemma extract_text_country_witness :
  let D := sample_documents in
  let photo := mkUpload (py "image/png") (py "pixels") in
  extract_text (mkUpload docx_type (py "ab")) (py "India") outage init_state
  = extract_text (mkUpload docx_type (py "ab")) (py "Saudi Arabia") outage init_state
  /\ extract_text photo (py "India") outage init_state
     = extract_text photo (py "saudi arabia") outage init_state
  /\ extract_text photo (py "Saudi Arabia") outage init_state
     = (Ok (Some (py "ara")), init_state).
Proof.
  intros D photo. split; [|split].
  - apply (proj1 (@extract_text_country D (mkUpload docx_type (py "ab"))
                    (py "India") (py "Saudi Arabia") outage init_state)).
    right. left. reflexivity.
  - apply (proj1 (proj2 (@extract_text_country D photo
                    (py "India") (py "saudi arabia") outage init_state)));
      discriminate.
  - apply (proj2 (proj2 (@extract_text_country D photo
                    (py "Saudi Arabia") (py "India") outage init_state)) tt).
    + discriminate.
    + discriminate.
    + reflexivity.
    + reflexivity.
Defined.

(** ** GPA conversion *)

Lemma SFcompare_refl (x : spec_float) :
  x <> S754_nan -> SFcompare x x = Some Eq.
Proof.
  destruct x as [s| s | |s m e]; simpl; intros H; try congruence.
  all: try (now destruct s).
  destruct s; rewrite Z.compare_refl;
    change (PosDef.Pos.compare_cont Eq m m) with (Pos.compare_cont Eq m m);
    rewrite Pos.compare_cont_refl; reflexivity.
Qed.

Lemma ltb_not_nan (x y : float) : (x <? y)%float = true -> is_nan x = false.
Proof.
  intros H. rewrite ltb_spec in H. unfold SFltb in H.
  unfold is_nan. rewrite eqb_spec. unfold SFeqb.
  rewrite SFcompare_refl; [reflexivity|].
  intros E. rewrite E in H. discriminate H.
Qed.

Lemma ltb_leb (x y : float) : (x <? y)%float = true -> (x <=? y)%float = true.
Proof.
  rewrite ltb_spec, leb_spec. unfold SFltb, SFleb.
  destruct (SFcompare (Prim2SF x) (Prim2SF y)) as [[| |]|]; congruence.
Qed.

Lemma is_nan_nan (x : float) : is_nan x = true -> x = nan.
Proof.
  intros H. apply Prim2SF_inj. unfold Prim2SF at 1. now rewrite H.
Qed.

Lemma nan_ltb (y : float) : (nan <? y)%float = false.
Proof. rewrite ltb_spec. reflexivity. Qed.

(** What [dict.get] returns is the default or a value of the table. *)
Lemma dict_get_cases {V} (k : pystr) (d : list (pystr * V)) (default : V) :
  (~ In k (map fst d) /\ dict_get k d default = default)
  \/ In (k, dict_get k d default) d.
Proof.
  induction d as [|[k' v] d IH]; simpl; [left; tauto|].
  destruct (str_eqb k k') eqn:E.
  - apply str_eqb_eq in E. subst. right. now left.
  - apply str_eqb_neq in E. destruct IH as [[Hk Hd]|Hin].
    + left. split; [|exact Hd]. intros [H|H]; congruence.
    + right. now right.
Qed.

(** X5. Whatever the GPA and the country, the converted GPA is at most 4.0
    and is never NaN; but nothing bounds it from below: the German grade 6.0
    converts to a negative GPA. *)
Theorem convert_gpa_at_most_4 (original_gpa : float) (country : pystr) :
  (convert_gpa original_gpa country <=? 4)%float = true
  /\ is_nan (convert_gpa original_gpa country) = false
  /\ (convert_gpa 6 (py "Germany") <? 0)%float = true.
Proof.
  unfold convert_gpa at 1 2, py_min.
  set (v := dict_get country conversion_rules (fun x => x) original_gpa).
  destruct (v <? 4)%float eqn:Hv.
  - split; [now apply ltb_leb|]. split; [now apply ltb_not_nan with (y := 4%float)|].
    reflexivity.
  - repeat split.
Qed.

(** X6. A GPA that is not a number converts to 4.0, the top of the scale,
    for every country. *)
Theorem convert_gpa_nan (original_gpa : float) (country : pystr) :
  is_nan original_gpa = true ->
  convert_gpa original_gpa country = 4%float.
Proof.
  intros H. apply is_nan_nan in H. subst original_gpa.
  unfold convert_gpa, py_min.
  assert (Hall : forall f : float -> float,
            In f (map snd conversion_rules) -> f nan = nan).
  { intros f Hf. simpl in Hf.
    repeat (destruct Hf as [<-|Hf]; [reflexivity|]). destruct Hf. }
  assert (Hnan : dict_get country conversion_rules (fun x => x) nan = nan).
  { destruct (dict_get_cases country conversion_rules (fun x : float => x))
      as [[_ ->]|Hin]; [reflexivity|].
    apply Hall. apply in_map_iff. eexists; split; [|exact Hin]. reflexivity. }
  rewrite Hnan, nan_ltb. reflexivity.
Qed.

(** X7. The table of conversions has exactly the six countries, compared
    as exact strings; for any other country the GPA is not rescaled, only
    capped at 4.0. *)
Theorem convert_gpa_unknown_country (original_gpa : float) (country : pystr) :
  map fst conversion_rules = COUNTRIES
  /\ (~ In country COUNTRIES ->
      convert_gpa original_gpa country = py_min 4 original_gpa
      /\ ((original_gpa <? 4)%float = true ->
          convert_gpa original_gpa country = original_gpa)).
Proof.
  split; [reflexivity|]. intros Hc.
  assert (H : convert_gpa original_gpa country = py_min 4 original_gpa).
  { unfold convert_gpa.
    destruct (dict_get_cases country conversion_rules (fun x : float => x))
      as [[_ ->]|Hin]; [reflexivity|].
    exfalso. apply Hc. change COUNTRIES with (map fst conversion_rules).
    apply in_map_iff. eexists; split; [|exact Hin]. reflexivity. }
  split; [exact H|]. intros Hlt. rewrite H. unfold py_min. now rewrite Hlt.
Qed.

Lemma convert_gpa_nan_witness :
  convert_gpa nan (py "India") = 4%float
  /\ convert_gpa (0 / 0) (py "Atlantis") = 4%float.
Proof.
  split.
  - exact (convert_gpa_nan nan (py "India") eq_refl).
  - exact (convert_gpa_nan (0 / 0) (py "Atlantis") eq_refl).
Defined.

Lemma convert_gpa_unknown_country_witness :
  convert_gpa 85 (py "india") = 4%float
  /\ convert_gpa 3.5 (py "France") = 3.5%float.
Proof.
  assert (Hi : ~ In (py "india") COUNTRIES).
  { simpl. intros H. repeat (destruct H as [H|H]; [discriminate H|]). exact H. }
  assert (Hf : ~ In (py "France") COUNTRIES).
  { simpl. intros H. repeat (destruct H as [H|H]; [discriminate H|]). exact H. }
  split.
  - exact (proj1 (proj2 (convert_gpa_unknown_country 85 (py "india")) Hi)).
  - exact (proj2 (proj2 (convert_gpa_unknown_country 3.5 (py "France")) Hf) eq_refl).
Defined.

(** ** DeepSeek *)

(** The first field of [system_prompt] is the opening brace of the JSON
    example, and its name is not among the keywords of the call. *)
Lemma system_prompt_format (country : pystr) :
  format_fragment [(py "country", country)] InText [] system_prompt
  = Some (Raise (KeyError first_field)).
Proof. vm_compute. reflexivity. Qed.

(** X8. [analyze_with_deepseek] returns for no input: when the secret is
    there, formatting [system_prompt] raises a [KeyError] for the braces of
    the JSON example in it, before the [try] is entered; when the secret is
    missing, its exception is raised. In both cases no request is sent and
    [st.error] is not called: the state is unchanged. *)
Theorem analyze_with_deepseek_always_raises
  (format_other : pystr -> list (pystr * pystr) -> outcome pystr)
  (api : service) (text country : pystr) (w : world) (st : state) :
  (forall api_key,
     secrets api (py "DEEPSEEK_API_KEY") = Ok api_key ->
     analyze_with_deepseek format_other api text country w st
     = (Raise (KeyError first_field), st))
  /\ (forall e,
     secrets api (py "DEEPSEEK_API_KEY") = Raise e ->
     analyze_with_deepseek format_other api text country w st = (Raise e, st))
  /\ exists e,
     analyze_with_deepseek format_other api text country w st = (Raise e, st).
Proof.
  assert (Hkey : forall api_key,
     secrets api (py "DEEPSEEK_API_KEY") = Ok api_key ->
     analyze_with_deepseek format_other api text country w st
     = (Raise (KeyError first_field), st)).
  { intros api_key Hs.
    unfold analyze_with_deepseek, str_format. unfold bind at 1. unfold lift at 1.
    rewrite Hs. unfold bind at 1. rewrite system_prompt_format. reflexivity. }
  assert (Hnone : forall e,
     secrets api (py "DEEPSEEK_API_KEY") = Raise e ->
     analyze_with_deepseek format_other api text country w st = (Raise e, st)).
  { intros e Hs.
    unfold analyze_with_deepseek. unfold bind at 1. unfold lift at 1.
    now rewrite Hs. }
  split; [exact Hkey|]. split; [exact Hnone|].
  destruct (secrets api (py "DEEPSEEK_API_KEY")) as [api_key|e] eqn:Hs.
  - eexists. now apply (Hkey api_key).
  - exists e. now apply Hnone.
Qed.

Lemma analyze_with_deepseek_always_raises_witness :
  analyze_with_deepseek no_format_other sample_service (py "GPA 3.9") (py "India")
    outage init_state
  = (Raise (KeyError first_field), init_state).
Proof.
  exact (proj1 (analyze_with_deepseek_always_raises no_format_other sample_service
                  (py "GPA 3.9") (py "India") outage init_state)
           (py "sk-test") eq_refl).
Defined.

(** [str.format] leaves a template without braces as it is. *)
Lemma format_fragment_plain kwargs (out template : pystr) :
  forallb (fun c => negb (N.eqb c (chr "{")) && negb (N.eqb c (chr "}"))) template = true ->
  format_fragment kwargs InText out template = Some (Ok (out ++ template)).
Proof.
  revert out. induction template as [|c t IH]; intros out H; simpl.
  - now rewrite app_nil_r.
  - simpl in H. apply andb_true_iff in H as [Hc Ht].
    apply andb_true_iff in Hc as [Ho Hcl].
    apply negb_true_iff in Ho, Hcl. rewrite Ho, Hcl, IH by assumption.
    now rewrite <- app_assoc.
Qed.

(** ** Sequences of lookups *)

Lemma sleeps_app (a b : list event) : sleeps (a ++ b) = (sleeps a + sleeps b)%nat.
Proof. unfold sleeps. now rewrite filter_app, length_app. Qed.

Lemma slept_app (a b : list event) : slept (a ++ b) == slept a + slept b.
Proof.
  induction a as [|[d|r|e] a IH]; simpl; try rewrite IH; lra.
Qed.

Lemma no_sleep_slept (evs : list event) :
  Forall (fun e => is_sleep e = false) evs -> sleeps evs = 0%nat /\ slept evs = 0.
Proof.
  induction 1 as [|[d|r|e] evs He _ IH]; simpl in *; try discriminate; auto.
Qed.

Section Sequences.

Context {R : Runtime}.

(** A key that was never used is not in the cache. *)
Lemma unused_key_misses (cs : list call) (k : key) :
  ~ In k (map call_key cs) -> cache_get k (cache (run_calls cs init_state)) = None.
Proof.
  intros Hk. apply cache_get_None. rewrite run_calls_keys. intros Hin.
  apply in_firstn_in in Hin.
  apply (proj1 (in_most_recent_first _ _)) in Hin.
  apply (proj2 (in_rev _ _)) in Hin. contradiction.
Qed.

(** X9. Lookups for pairwise distinct (institution, country) pairs, made
    from an empty cache, each sleep exactly once: n such calls sleep n
    times, for at least n and at most 3n seconds in all. *)
Theorem distinct_lookups_sleep_each (cs : list call) :
  NoDup (map call_key cs) ->
  (forall c, In c cs -> random_ok (call_world c)) ->
  let evs := trace (run_calls cs init_state) in
  sleeps evs = length cs
  /\ inject_Z (Z.of_nat (length cs)) <= slept evs
  /\ slept evs <= 3 * inject_Z (Z.of_nat (length cs)).
Proof.
  induction cs as [|c cs IH] using rev_ind; intros Hnd Hw evs.
  - unfold evs; simpl. repeat split; try reflexivity; unfold Qle; simpl; lia.
  - rewrite map_app in Hnd. simpl in Hnd.
    apply NoDup_remove in Hnd as [Hnd Hc]. rewrite app_nil_r in Hnd, Hc.
    destruct IH as (IHn & IHlo & IHhi); auto.
    { intros c' Hc'. apply Hw. apply in_or_app. now left. }
    assert (Hmiss := unused_key_misses cs (call_key c) Hc).
    destruct (miss_run (call_institution c) (call_country c) (call_world c)
                (run_calls cs init_state) Hmiss) as (b & rest & Hrun & Hns & _).
    assert (Hev : evs = trace (run_calls cs init_state)
                        ++ Sleep (uniform 1 3 (random (call_world c)
                                     (draws (run_calls cs init_state)))) :: rest).
    { unfold evs. rewrite run_calls_snoc. unfold run_call. now rewrite Hrun. }
    destruct (no_sleep_slept rest Hns) as [Hn0 Hs0].
    assert (Hin : In c (cs ++ [c])) by (apply in_or_app; right; now left).
    destruct (Hw c Hin (draws (run_calls cs init_state))) as [Hu0 Hu1].
    set (d := uniform 1 3 (random (call_world c) (draws (run_calls cs init_state)))) in *.
    rewrite Hev, sleeps_app, slept_app, length_app.
    change (sleeps (Sleep d :: rest)) with (S (sleeps rest)).
    change (slept (Sleep d :: rest)) with (d + slept rest).
    rewrite Hn0, Hs0, IHn. simpl length.
    split; [lia|].
    rewrite Nat2Z.inj_add, inject_Z_plus.
    change (inject_Z (Z.of_nat 1)) with 1.
    set (n := inject_Z (Z.of_nat (length cs))) in *.
    assert (Hd : 1 <= d /\ d <= 3)
      by (destruct (uniform_1_3 _ Hu0 Hu1) as (Hd1 & Hd3 & _); split; assumption).
    split; lra.
Qed.

End Sequences.

Lemma distinct_lookups_sleep_each_witness :
  let R := sample_runtime in
  let evs := trace (run_calls (numbered_calls 0 5) init_state) in
  sleeps evs = 5%nat /\ 5 <= slept evs /\ slept evs <= 15.
Proof.
  intros R evs.
  assert (Hw : forall c, In c (numbered_calls 0 5) -> random_ok (call_world c)).
  { intros c Hc. unfold numbered_calls in Hc. apply in_map_iff in Hc as (n & <- & _).
    intros k. simpl. unfold half. split; lra. }
  destruct (@distinct_lookups_sleep_each R (numbered_calls 0 5)
              (numbered_calls_NoDup 0 5) Hw) as (Hn & Hlo & Hhi).
  split; [exact Hn|]. split; [exact Hlo|exact Hhi].
Defined.

(** ** How long a verdict stays in the cache *)

Lemma without_app k (a b : list key) : without k (a ++ b) = without k a ++ without k b.
Proof. unfold without. apply filter_app. Qed.

Lemma without_comm a b (l : list key) : without a (without b l) = without b (without a l).
Proof.
  unfold without. induction l as [|x l IH]; simpl; [reflexivity|].
  destruct (key_eqb b x) eqn:Eb, (key_eqb a x) eqn:Ea; simpl;
    rewrite ?Ea, ?Eb; simpl; now rewrite IH.
Qed.

Lemma without_idem k (l : list key) : without k (without k l) = without k l.
Proof.
  apply without_notin. rewrite in_without. tauto.
Qed.

Lemma length_without k (l : list key) :
  NoDup l -> (length l <= S (length (without k l)))%nat.
Proof.
  induction 1 as [|x l Hx Hn IH]; simpl; [lia|].
  unfold without in *; simpl.
  destruct (key_eqb k x) eqn:E; simpl; [|lia].
  apply key_eqb_eq in E. subst x.
  fold (without k l). rewrite without_notin by assumption. lia.
Qed.

(** The keys met before [k], going back in time, are keys of the calls made
    since [k] was last used. *)
Lemma keys_before_last_use k (a b : list key) :
  exists pre post rest,
    most_recent_first (a ++ k :: b) = pre ++ k :: post
    /\ without k (most_recent_first a) = pre ++ rest.
Proof.
  induction a as [|x a IH]; simpl.
  - exists [], (without k (most_recent_first b)), []. split; reflexivity.
  - destruct IH as (pre & post & rest & HM & Hpre).
    destruct (key_eqb k x) eqn:E.
    + apply key_eqb_eq in E. subst x.
      exists [], (without k (most_recent_first (a ++ k :: b))),
             (without k (most_recent_first a)).
      split; [reflexivity|]. simpl. apply without_idem.
    + exists (x :: without x pre), (without x post), (without x rest).
      rewrite HM, without_app. split.
      * simpl. f_equal. f_equal. unfold without at 1; simpl.
        assert (Ex : key_eqb x k = false).
        { apply key_eqb_neq. apply key_eqb_neq in E. congruence. }
        now rewrite Ex.
      * simpl. f_equal.
        now rewrite without_comm, Hpre, without_app.
Qed.

(** Older calls only add keys at the end of the order of last use. *)
Lemma most_recent_first_app (a b : list key) :
  exists tl, most_recent_first (a ++ b) = most_recent_first a ++ tl.
Proof.
  induction a as [|x a [tl IH]]; simpl; [eauto|].
  exists (without x tl). now rewrite IH, without_app.
Qed.

Lemma distinct_others_rev k (l : list key) :
  distinct_others k (rev l) = distinct_others k l.
Proof.
  unfold distinct_others. apply Permutation_length.
  apply NoDup_Permutation.
  - apply NoDup_without, NoDup_most_recent_first.
  - apply NoDup_without, NoDup_most_recent_first.
  - intros x. rewrite !in_without, !in_most_recent_first, <- in_rev. tauto.
Qed.

Lemma distinct_others_cons k x (l : list key) :
  (distinct_others k l <= distinct_others k (x :: l))%nat.
Proof.
  unfold distinct_others; simpl.
  unfold without at 2; simpl.
  destruct (key_eqb k x) eqn:E; simpl.
  - apply key_eqb_eq in E. subst x.
    fold (without k (without k (most_recent_first l))). now rewrite without_idem.
  - fold (without k (without x (most_recent_first l))).
    rewrite without_comm.
    pose proof (length_without x (without k (most_recent_first l))
                  (NoDup_without k _ (NoDup_most_recent_first l))).
    lia.
Qed.

Lemma cache_get_remove_other k k' (c : list (key * bool)) :
  k <> k' -> cache_get k (cache_remove k' c) = cache_get k c.
Proof.
  intros Hk. unfold cache_remove.
  induction c as [|[k0 v] c IH]; simpl; [reflexivity|].
  destruct (key_eqb k' k0) eqn:E'; simpl.
  - apply key_eqb_eq in E'. subst k0.
    apply key_eqb_neq in Hk. now rewrite Hk.
  - now rewrite IH.
Qed.

Lemma cache_get_removelast k (c : list (key * bool)) :
  In k (keys (removelast c)) -> cache_get k (removelast c) = cache_get k c.
Proof.
  induction c as [|[k0 v] c IH]; [reflexivity|].
  destruct c as [|e c]; [simpl; tauto|].
  change (removelast ((k0, v) :: e :: c)) with ((k0, v) :: removelast (e :: c)).
  simpl keys. simpl cache_get.
  destruct (key_eqb k k0) eqn:E; [reflexivity|].
  apply key_eqb_neq in E. intros [H|H]; [congruence|]. now apply IH.
Qed.

Section Retention.

Context {R : Runtime}.

(** A call leaves alone the verdicts cached for the other keys that stay. *)
Lemma other_call_keeps_verdict (st : state) (c : call) (k : key) :
  k <> call_key c ->
  In k (keys (cache (run_call st c))) ->
  cache_get k (cache (run_call st c)) = cache_get k (cache st).
Proof.
  intros Hk. unfold run_call, call_key in *.
  destruct (cache_get (call_institution c, call_country c) (cache st)) as [v|] eqn:Hc.
  - rewrite (check_accreditation_hit _ _ (call_world c) st v Hc); simpl.
    intros _. apply key_eqb_neq in Hk as Hk'. rewrite Hk'.
    now apply cache_get_remove_other.
  - destruct (miss_run (call_institution c) (call_country c) (call_world c) st Hc)
      as (b & evs & -> & _); simpl.
    unfold cache_put. rewrite Hc.
    apply key_eqb_neq in Hk as Hk'.
    destruct (Nat.ltb (length (cache st)) maxsize); simpl; rewrite Hk'.
    + reflexivity.
    + intros [H|H]; [congruence|]. now apply cache_get_removelast.
Qed.

Lemma verdict_stays_cached (cs1 cs2 : list call) (c : call) (b : bool) :
  fst (check_accreditation (call_institution c) (call_country c) (call_world c)
         (run_calls cs1 init_state)) = Ok b ->
  (distinct_others (call_key c) (map call_key cs2) < maxsize)%nat ->
  cache_get (call_key c) (cache (run_calls (cs1 ++ c :: cs2) init_state)) = Some b.
Proof.
  intros Hb. induction cs2 as [|x cs2 IH] using rev_ind; intros Hbound.
  - rewrite run_calls_snoc. unfold run_call, call_key.
    destruct (result_is_cached (call_institution c) (call_country c) (call_world c)
                (run_calls cs1 init_state)) as (b' & Hb' & Hcached).
    rewrite Hb in Hb'. injection Hb' as <-. exact Hcached.
  - assert (Hle : (distinct_others (call_key c) (map call_key cs2)
                   <= distinct_others (call_key c) (map call_key (cs2 ++ [x])))%nat).
    { rewrite <- (distinct_others_rev _ (map call_key (cs2 ++ [x]))).
      rewrite map_app, rev_app_distr. simpl.
      rewrite <- (distinct_others_rev _ (map call_key cs2)).
      apply distinct_others_cons. }
    specialize (IH ltac:(lia)).
    change (cs1 ++ c :: cs2 ++ [x]) with (cs1 ++ (c :: cs2) ++ [x]).
    rewrite app_assoc, run_calls_snoc.
    set (st' := run_calls (cs1 ++ c :: cs2) init_state) in *.
    destruct (key_eqb (call_key c) (call_key x)) eqn:E.
    + apply key_eqb_eq in E. unfold run_call.
      unfold call_key in E. injection E as Ei Ec. rewrite <- Ei, <- Ec.
      rewrite (check_accreditation_hit _ _ (call_world x) st' b IH); simpl.
      apply cache_get_touch.
    + apply key_eqb_neq in E.
      rewrite other_call_keeps_verdict; [exact IH|exact E|].
      unfold st'. rewrite <- run_calls_snoc, <- app_assoc.
      change ((c :: cs2) ++ [x]) with (c :: cs2 ++ [x]).
      rewrite run_calls_keys, map_app, rev_app_distr. simpl map. simpl rev.
      rewrite <- app_assoc. simpl app.
      destruct (keys_before_last_use (call_key c) (rev (map call_key (cs2 ++ [x])))
                  (rev (map call_key cs1))) as (pre & post & rest & HM & Hpre).
      rewrite HM.
      assert (Hlen : (length pre < maxsize)%nat).
      { assert (Hd : distinct_others (call_key c) (rev (map call_key (cs2 ++ [x])))
                     = length (pre ++ rest)) by (unfold distinct_others; now rewrite Hpre).
        rewrite distinct_others_rev, length_app in Hd. lia. }
      rewrite firstn_app.
      apply in_or_app. right.
      destruct (maxsize - length pre)%nat as [|n] eqn:En; [lia|]. now left.
Qed.

(** X10. A verdict stays in the cache as long as the calls made since use
    fewer than 1000 distinct other keys: whatever those calls and whatever
    the registries answer by then, a new call with the same arguments
    returns the verdict of the earlier one without a delay, a request or an
    error message. *)
Theorem cached_verdict_survives (cs1 cs2 : list call) (c : call) (w : world) :
  let verdict :=
    fst (check_accreditation (call_institution c) (call_country c) (call_world c)
           (run_calls cs1 init_state)) in
  let later := run_calls (cs1 ++ c :: cs2) init_state in
  let again :=
    check_accreditation (call_institution c) (call_country c) w later in
  (distinct_others (call_key c) (map call_key cs2) < 1000)%nat ->
  fst again = verdict
  /\ added later (snd again) = []
  /\ draws (snd again) = draws later.
Proof.
  intros verdict later again Hbound.
  destruct (check_accreditation_returns (call_institution c) (call_country c)
              (call_world c) (run_calls cs1 init_state)) as [b Hb].
  pose proof (verdict_stays_cached cs1 cs2 c b Hb Hbound) as Hcached.
  unfold again. fold later in Hcached. unfold call_key in Hcached.
  rewrite (check_accreditation_hit _ _ w later b Hcached); simpl.
  unfold verdict. rewrite Hb.
  split; [reflexivity|]. split; [now apply added_same|reflexivity].
Qed.

(** X11. Once the calls made since have used 1000 distinct other keys, and
    not the key itself, the verdict is gone from the cache: a new call with
    the same arguments sleeps and looks the institution up again. *)
Theorem verdict_evicted_by_1000_keys (cs1 cs2 : list call) (c : call) (w : world) :
  let later := run_calls (cs1 ++ c :: cs2) init_state in
  let again :=
    check_accreditation (call_institution c) (call_country c) w later in
  ~ In (call_key c) (map call_key cs2) ->
  (1000 <= distinct_others (call_key c) (map call_key cs2))%nat ->
  cache_get (call_key c) (cache later) = None
  /\ exists rest,
       added later (snd again)
       = Sleep (uniform 1 3 (random w (draws later))) :: rest
       /\ lookup_requests (call_country c) (http_calls rest).
Proof.
  intros later again Hk Hmany. change 1000%nat with maxsize in Hmany.
  assert (Hgone : cache_get (call_key c) (cache later) = None).
  { apply cache_get_None. unfold later.
    rewrite run_calls_keys, map_app, rev_app_distr. simpl map. simpl rev.
    rewrite <- app_assoc. simpl app.
    destruct (most_recent_first_app (rev (map call_key cs2))
                (call_key c :: rev (map call_key cs1))) as [tl ->].
    assert (Hlen : (maxsize <= length (most_recent_first (rev (map call_key cs2))))%nat).
    { rewrite <- distinct_others_rev in Hmany. unfold distinct_others in Hmany.
      rewrite without_notin in Hmany; [exact Hmany|].
      rewrite in_most_recent_first, <- in_rev. exact Hk. }
    rewrite firstn_app.
    replace (maxsize - length (most_recent_first (rev (map call_key cs2))))%nat
      with 0%nat by lia.
    rewrite firstn_O, app_nil_r. intros Hin.
    apply in_firstn_in in Hin.
    apply (proj1 (in_most_recent_first _ _)) in Hin.
    apply (proj2 (in_rev _ _)) in Hin. contradiction. }
  split; [exact Hgone|].
  destruct (miss_run (call_institution c) (call_country c) w later Hgone)
    as (b & rest & Hrun & _ & Hn).
  exists rest. unfold again. rewrite Hrun; simpl.
  split; [apply added_app; reflexivity|exact Hn].
Qed.

End Retention.

(** ** The adapters, further *)

Lemma getitem_field_value (soup : list node) (id : pystr) (w : world) (st : state) :
  getitem (find soup (py "input") [(py "id", id)]) (py "value") w st
  = (field_value soup id, st).
Proof.
  unfold getitem, field_value.
  destruct (find soup (py "input") [(py "id", id)]) as [[s|nm cl ats cs]|];
    try reflexivity.
  destruct (lookup (py "value") ats); reflexivity.
Qed.

Lemma field_value_error (soup : list node) (id : pystr) (e : exn) :
  field_value soup id = Raise e -> e = TypeError \/ e = KeyError (py "value").
Proof.
  unfold field_value.
  destruct (find soup (py "input") [(py "id", id)]) as [[s|nm cl ats cs]|];
    try (intros [= <-]; now left).
  destruct (lookup (py "value") ats); [discriminate|]. intros [= <-]. now right.
Qed.

Section India.

Context {R : Runtime}.

Lemma check_ugc_india_run (institution : pystr) (w : world) (st : state)
  (form : response) :
  http w (mkRequest GET ugc_india_url []) = Ok form ->
  check_ugc_india institution w st
  = match field_value (html_parser (text form)) (py "__VIEWSTATE"),
          field_value (html_parser (text form)) (py "__EVENTVALIDATION") with
    | Raise e, _ => (Raise e, sent (mkRequest GET ugc_india_url []) st)
    | Ok _, Raise e => (Raise e, sent (mkRequest GET ugc_india_url []) st)
    | Ok vs, Ok ev =>
        let search := mkRequest POST ugc_india_url (india_search vs ev institution) in
        match http w search with
        | Ok result =>
            (Ok (negb (contains (py "No College Found") (text result))),
             sent search (sent (mkRequest GET ugc_india_url []) st))
        | Raise e => (Raise e, sent search (sent (mkRequest GET ugc_india_url []) st))
        end
    end.
Proof.
  intros Hget.
  unfold check_ugc_india, requests_get, session_post, send. unfold bind at 1.
  rewrite Hget. unfold bind at 1. rewrite getitem_field_value.
  destruct (field_value (html_parser (text form)) (py "__VIEWSTATE")) as [vs|e];
    [|reflexivity].
  unfold bind at 1. rewrite getitem_field_value.
  destruct (field_value (html_parser (text form)) (py "__EVENTVALIDATION")) as [ev|e];
    [|reflexivity].
  unfold bind, india_search, sent; simpl.
  destruct (http w _); reflexivity.
Qed.

(** X13. India, with both hidden fields in the form: the values read from
    the form page are posted back unchanged, with the institution name and
    the search button, to the same URL; the verdict is the absence of "No
    College Found" in the answer to that POST, and an exception of the POST
    gives [False], reported. *)
Theorem ugc_india_round_trip (institution : pystr) (w : world) (st : state)
  (form : response) (vs ev : pystr) :
  cache_get (institution, py "India") (cache st) = None ->
  http w (mkRequest GET ugc_india_url []) = Ok form ->
  field_value (html_parser (text form)) (py "__VIEWSTATE") = Ok vs ->
  field_value (html_parser (text form)) (py "__EVENTVALIDATION") = Ok ev ->
  let search := mkRequest POST ugc_india_url (india_search vs ev institution) in
  let delay := Sleep (uniform 1 3 (random w (draws st))) in
  let result := check_accreditation institution (py "India") w st in
  (forall page, http w search = Ok page ->
     fst result = Ok (negb (contains (py "No College Found") (text page)))
     /\ added st (snd result)
        = [delay; Http (mkRequest GET ugc_india_url []); Http search])
  /\ (forall e, http w search = Raise e ->
     fst result = Ok false
     /\ added st (snd result)
        = [delay; Http (mkRequest GET ugc_india_url []); Http search; StError e]).
Proof.
  intros Hmiss Hget Hvs Hev search delay result.
  unfold result. rewrite (check_accreditation_miss _ _ w st Hmiss).
  change (dispatch institution (py "India")) with (check_ugc_india institution).
  rewrite (check_ugc_india_run institution w (after_delay w st) form Hget), Hvs, Hev.
  cbv zeta. fold search. split.
  - intros page Hpost. rewrite Hpost. split; [reflexivity|].
    apply added_app. unfold stored, sent, after_delay; simpl.
    now rewrite <- !app_assoc.
  - intros e Hpost. rewrite Hpost. split; [reflexivity|].
    apply added_app. unfold stored, reported, sent, after_delay; simpl.
    now rewrite <- !app_assoc.
Qed.

(** X14. India, with an incomplete form: when one of the two hidden fields
    is missing, or has no value, the search is never posted; after the
    single GET the call returns [False] and reports a [TypeError] (field
    missing) or the [KeyError] of "value" (field without a value). *)
Theorem ugc_india_incomplete_form (institution : pystr) (w : world) (st : state)
  (form : response) (e : exn) :
  cache_get (institution, py "India") (cache st) = None ->
  http w (mkRequest GET ugc_india_url []) = Ok form ->
  field_value (html_parser (text form)) (py "__VIEWSTATE") = Raise e
  \/ ((exists vs, field_value (html_parser (text form)) (py "__VIEWSTATE") = Ok vs)
      /\ field_value (html_parser (text form)) (py "__EVENTVALIDATION") = Raise e) ->
  let result := check_accreditation institution (py "India") w st in
  fst result = Ok false
  /\ added st (snd result)
     = [Sleep (uniform 1 3 (random w (draws st)));
        Http (mkRequest GET ugc_india_url []); StError e]
  /\ (e = TypeError \/ e = KeyError (py "value")).
Proof.
  intros Hmiss Hget Hfield result.
  assert (Hrun : check_ugc_india institution w (after_delay w st)
                 = (Raise e, sent (mkRequest GET ugc_india_url []) (after_delay w st))).
  { rewrite (check_ugc_india_run institution w (after_delay w st) form Hget).
    destruct Hfield as [->|[[vs ->] ->]]; reflexivity. }
  unfold result. rewrite (check_accreditation_miss _ _ w st Hmiss).
  change (dispatch institution (py "India")) with (check_ugc_india institution).
  rewrite Hrun. split; [reflexivity|]. split.
  - apply added_app. unfold stored, reported, sent, after_delay; simpl.
    now rewrite <- !app_assoc.
  - destruct Hfield as [H|[_ H]]; exact (field_value_error _ _ _ H).
Qed.

End India.

Lemma ugc_india_round_trip_witness :
  let R := sample_runtime in
  let w := india_world india_form (py "<p>No College Found</p>") in
  let result := check_accreditation (py "MIT") (py "India") w init_state in
  fst result = Ok false
  /\ added init_state (snd result)
     = [Sleep (uniform 1 3 (1 # 2));
        Http (mkRequest GET ugc_india_url []);
        Http (mkRequest POST ugc_india_url (india_search (py "vs") (py "ev") (py "MIT")))].
Proof.
  intros R w result.
  exact (proj1 (@ugc_india_round_trip R (py "MIT") w init_state
                  (mkResponse 200 india_form) (py "vs") (py "ev")
                  eq_refl eq_refl eq_refl eq_refl)
           (mkResponse 200 (py "<p>No College Found</p>")) eq_refl).
Defined.

Lemma ugc_india_incomplete_form_witness :
  let R := sample_runtime in
  let w := india_world india_broken_form (py "<p>MIT</p>") in
  let result := check_accreditation (py "MIT") (py "India") w init_state in
  fst result = Ok false
  /\ added init_state (snd result)
     = [Sleep (uniform 1 3 (1 # 2));
        Http (mkRequest GET ugc_india_url []); StError TypeError]
  /\ (TypeError = TypeError \/ TypeError = KeyError (py "value")).
Proof.
  intros R w result.
  exact (@ugc_india_incomplete_form R (py "MIT") w init_state
           (mkResponse 200 india_broken_form) TypeError
           eq_refl eq_refl (or_introl eq_refl)).
Defined.

Lemma numbered_call_other_key (start len : nat) :
  ~ In (tum, py "Germany") (map call_key (numbered_calls start len)).
Proof.
  unfold numbered_calls. rewrite map_map. intros H.
  apply in_map_iff in H as (n & Hn & _).
  unfold call_key, numbered_call in Hn; simpl in Hn. discriminate Hn.
Qed.

Lemma cached_verdict_survives_witness :
  let R := sample_runtime in
  let c := mkCall tum (py "Germany") outage in
  let later := run_calls ([] ++ c :: numbered_calls 0 5) init_state in
  let again :=
    check_accreditation tum (py "Germany") (serving 200 (py "<p>1 Treffer</p>")) later in
  fst again = Ok false
  /\ added later (snd again) = []
  /\ draws (snd again) = draws later.
Proof.
  intros R c later again.
  assert (Hfew : (distinct_others (call_key c) (map call_key (numbered_calls 0 5))
                  < 1000)%nat) by (vm_compute; lia).
  exact (@cached_verdict_survives R [] (numbered_calls 0 5) c
           (serving 200 (py "<p>1 Treffer</p>")) Hfew).
Defined.

Lemma verdict_evicted_by_1000_keys_witness :
  let R := sample_runtime in
  let c := mkCall tum (py "Germany") outage in
  let w := serving 200 (py "<p>1 Treffer</p>") in
  let later := run_calls ([] ++ c :: numbered_calls 0 1000) init_state in
  let again := check_accreditation tum (py "Germany") w later in
  cache_get (tum, py "Germany") (cache later) = None
  /\ exists rest,
       added later (snd again)
       = Sleep (uniform 1 3 (random w (draws later))) :: rest
       /\ lookup_requests (py "Germany") (http_calls rest).
Proof.
  intros R c w later again.
  assert (Hmany : (1000 <= distinct_others (call_key c)
                             (map call_key (numbered_calls 0 1000)))%nat)
    by (vm_compute; lia).
  exact (@verdict_evicted_by_1000_keys R [] (numbered_calls 0 1000) c w
           (numbered_call_other_key 0 1000) Hmany).
Defined.

(** ** The status code is never read *)

Lemma send_same_bodies {A} (w w' : world) (r : request) (k k' : response -> M A)
  (st : state) :
  same_bodies w w' ->
  (forall a b st1, text a = text b -> k a w st1 = k' b w' st1) ->
  bind (send r) k w st = bind (send r) k' w' st.
Proof.
  intros [Hb _] Hk. unfold bind, send. specialize (Hb r).
  destruct (http w r) as [a|e], (http w' r) as [b|e']; try contradiction.
  - now apply Hk.
  - now subst.
Qed.

Lemma any_M_same_world {A} (f : A -> M bool) (l : list A) (w w' : world) (st : state) :
  (forall x st1, f x w st1 = f x w' st1) ->
  any_M f l w st = any_M f l w' st.
Proof.
  intros Hf. revert st. induction l as [|x l IH]; intros st; simpl; [reflexivity|].
  unfold bind. rewrite Hf.
  destruct (f x w' st) as [[[|]|e] st1]; auto.
Qed.

Section StatusCode.

Context {R : Runtime}.

Lemma re_search_same_world pattern txt (w w' : world) (st : state) :
  re_search pattern txt w st = re_search pattern txt w' st.
Proof.
  unfold re_search.
  destruct (tokenize pattern) as [ts|].
  - destruct (parse_tokens ts (None, Eps) []); reflexivity.
  - destruct (re_other pattern txt); reflexivity.
Qed.

Lemma dispatch_same_bodies i c (w w' : world) (st : state) :
  same_bodies w w' -> dispatch i c w st = dispatch i c w' st.
Proof.
  intros Hw. unfold dispatch.
  repeat match goal with |- context [if ?b then _ else _] => destruct b end;
    try reflexivity.
  - pose proof (proj1 Hw (mkRequest GET ugc_india_url [])) as Hget.
    destruct (http w (mkRequest GET ugc_india_url [])) as [a|e] eqn:Ha,
             (http w' (mkRequest GET ugc_india_url [])) as [b|e'] eqn:Hb;
      try contradiction.
    + rewrite (check_ugc_india_run i w st a Ha), (check_ugc_india_run i w' st b Hb), Hget.
      destruct (field_value (html_parser (text b)) (py "__VIEWSTATE")) as [vs|e];
        [|reflexivity].
      destruct (field_value (html_parser (text b)) (py "__EVENTVALIDATION")) as [ev|e];
        [|reflexivity].
      cbv zeta.
      pose proof (proj1 Hw (mkRequest POST ugc_india_url (india_search vs ev i))) as Hpost.
      destruct (http w (mkRequest POST ugc_india_url (india_search vs ev i))) as [pa|pe],
               (http w' (mkRequest POST ugc_india_url (india_search vs ev i))) as [pb|pe'];
        try contradiction; try (now rewrite Hpost); now subst.
    + subst e'. unfold check_ugc_india, requests_get, send. unfold bind at 1 5.
      now rewrite Ha, Hb.
  - unfold check_hec_pakistan, requests_get.
    apply send_same_bodies; [exact Hw|]. intros a b st1 ->.
    apply any_M_same_world. intros d st2. apply re_search_same_world.
  - unfold check_moe_saudi, requests_get.
    apply send_same_bodies; [exact Hw|]. intros a b st1 ->. reflexivity.
  - unfold check_anabin_germany, requests_get.
    apply send_same_bodies; [exact Hw|]. intros a b st1 ->. reflexivity.
  - unfold check_nuc_nigeria, requests_get.
    apply send_same_bodies; [exact Hw|]. intros a b st1 ->. reflexivity.
  - unfold check_ugc_bangladesh, requests_get.
    apply send_same_bodies; [exact Hw|]. intros a b st1 ->. reflexivity.
Qed.

(** X12. No adapter reads the status code of a response: two worlds that
    answer every request with the same body, or the same exception, and draw
    the same random numbers give the same result, the same trace and the
    same cache, whatever status codes they answer with. An error page sent
    with status 404 or 500 is thus matched like a listing. *)
Theorem status_code_is_ignored (institution country : pystr)
  (w w' : world) (st : state) :
  same_bodies w w' ->
  check_accreditation institution country w st
  = check_accreditation institution country w' st.
Proof.
  intros Hw.
  destruct (cache_get (institution, country) (cache st)) as [v|] eqn:Hc.
  - now rewrite !(check_accreditation_hit institution country _ st v Hc).
  - rewrite !(check_accreditation_miss institution country _ st Hc).
    assert (Hd : after_delay w st = after_delay w' st).
    { unfold after_delay. destruct Hw as [_ Hr]. now rewrite Hr. }
    rewrite Hd, (dispatch_same_bodies institution country w w' _ Hw).
    reflexivity.
Qed.

End StatusCode.

Lemma status_code_is_ignored_witness :
  let R := sample_runtime in
  check_accreditation tum (py "Germany") (serving 200 (py "Not Found")) init_state
  = check_accreditation tum (py "Germany") (serving 404 (py "Not Found")) init_state.
Proof.
  intros R.
  apply (@status_code_is_ignored R tum (py "Germany")
           (serving 200 (py "Not Found")) (serving 404 (py "Not Found")) init_state).
  split; [intros r; reflexivity|intros n; reflexivity].
Defined.

(** ** Names that are plain text, and the empty name *)

Lemma startswith_snoc (p : pystr) (x : N) (s : pystr) :
  startswith (p ++ [x]) s
  = startswith p s && match skipn (length p) s with
                      | t :: _ => N.eqb x t
                      | [] => false
                      end.
Proof.
  revert s. induction p as [|a p IH]; intros [|y s]; simpl; try reflexivity.
  - now rewrite andb_true_r.
  - now rewrite IH, andb_assoc.
Qed.

Lemma skipn_next {A} (n : nat) (s : list A) (t : A) (s' : list A) :
  skipn n s = t :: s' -> skipn (n + 1) s = s'.
Proof.
  revert s. induction n as [|n IH]; intros s H; simpl in *.
  - now subst.
  - destruct s as [|y s]; [discriminate|]. now apply IH.
Qed.

Lemma forallb_skipn_head (f : N -> bool) (n : nat) (s : pystr) (t : N) (s' : pystr) :
  forallb f s = true -> skipn n s = t :: s' -> f t = true.
Proof.
  intros Hs Hk. rewrite <- (firstn_skipn n s), Hk, forallb_app in Hs.
  apply andb_true_iff in Hs as [_ Hs]. simpl in Hs.
  now apply andb_true_iff in Hs as [Ht _].
Qed.

Lemma plain_name_ascii (name : pystr) :
  plain_name name = true -> forallb is_ascii name = true.
Proof.
  unfold plain_name. induction name as [|c name IH]; simpl; [reflexivity|].
  intros H. apply andb_true_iff in H as [Hc Hn].
  apply andb_true_iff in Hc as [Ha _]. now rewrite Ha, IH.
Qed.

Lemma tokenize_plain (name : pystr) :
  plain_name name = true -> tokenize name = Some (map TChr name).
Proof.
  unfold plain_name. induction name as [|c name IH]; [reflexivity|].
  intros H. simpl in H. apply andb_true_iff in H as [Hc Hn].
  apply andb_true_iff in Hc as [_ Hs]. apply negb_true_iff in Hs.
  assert (Hall : forall x, In x re_special -> N.eqb c x = false).
  { intros x Hx. destruct (N.eqb c x) eqn:E; [|reflexivity].
    assert (is_special c = true)
      by (unfold is_special; apply existsb_exists; eauto).
    congruence. }
  cbn [tokenize].
  rewrite (Hall (chr "\")), (Hall (chr ".")), (Hall (chr "|")),
          (Hall (chr "(")), (Hall (chr ")")), Hs, (IH Hn)
    by (vm_compute; tauto).
  reflexivity.
Qed.

Lemma any_M_pure {A} (f : A -> M bool) (g : A -> bool) (l : list A)
  (w : world) (st : state) :
  (forall x, In x l -> f x w st = (Ok (g x), st)) ->
  any_M f l w st = (Ok (existsb g l), st).
Proof.
  induction l as [|x l IH]; intros Hf; simpl; [reflexivity|].
  unfold bind. rewrite (Hf x (or_introl eq_refl)).
  destruct (g x); [reflexivity|]. apply IH. intros y Hy. apply Hf. now right.
Qed.

Section PlainNames.

Context {R : Runtime}.

Lemma parse_tokens_plain (name : pystr) (o : option regex) (r0 : regex)
  (stack : list frame) :
  parse_tokens (map TChr name) (o, r0) stack
  = parse_tokens [] (o, literal_after r0 name) stack.
Proof.
  revert r0. induction name as [|c name IH]; intros r0; [reflexivity|].
  simpl map. cbn [parse_tokens fst snd]. now rewrite IH.
Qed.

Lemma lower_ascii (s : pystr) :
  forallb is_ascii s = true -> lower s = map ascii_lower s.
Proof. intros H. unfold lower. now rewrite H. Qed.

Lemma matches_literal (name s : pystr) :
  forallb is_ascii name = true -> forallb is_ascii s = true ->
  matches (literal_after Eps name) s
  = if startswith (map ascii_lower name) (map ascii_lower s)
    then [skipn (length name) s] else [].
Proof.
  intros Hn Hs. induction name as [|c name IH] using rev_ind.
  - reflexivity.
  - rewrite forallb_app in Hn. apply andb_true_iff in Hn as [Hn Hc].
    simpl in Hc. rewrite andb_true_r in Hc.
    unfold literal_after in *. rewrite fold_left_app. simpl fold_left.
    cbn [matches]. rewrite (IH Hn).
    rewrite map_app. change (map ascii_lower [c]) with [ascii_lower c].
    rewrite startswith_snoc, length_map, skipn_map, length_app.
    destruct (startswith (map ascii_lower name) (map ascii_lower s)); [|reflexivity].
    simpl flat_map. rewrite app_nil_r.
    destruct (skipn (length name) s) as [|t s'] eqn:Hk; [reflexivity|].
    simpl map.
    unfold ci_eq. rewrite Hc, (forallb_skipn_head is_ascii _ s t s' Hs Hk).
    simpl andb. simpl length.
    rewrite (skipn_next _ s t s' Hk).
    destruct (N.eqb (ascii_lower c) (ascii_lower t)); reflexivity.
Qed.

Lemma search_literal (name s : pystr) :
  forallb is_ascii name = true -> forallb is_ascii s = true ->
  search (literal_after Eps name) s
  = contains (map ascii_lower name) (map ascii_lower s).
Proof.
  intros Hn. induction s as [|x s IH]; intros Hs.
  - simpl. unfold matches_at. rewrite (matches_literal name [] Hn Hs).
    simpl map. destruct (startswith (map ascii_lower name) []); reflexivity.
  - assert (Hs' : forallb is_ascii s = true)
      by (simpl in Hs; now apply andb_true_iff in Hs as [_ Hs]).
    cbn [search]. rewrite (IH Hs'). unfold matches_at.
    rewrite (matches_literal name (x :: s) Hn Hs).
    simpl map. cbn [contains].
    destruct (startswith (map ascii_lower name) (ascii_lower x :: map ascii_lower s));
      reflexivity.
Qed.

(** A plain name is searched as text. *)
Lemma re_search_plain (name txt : pystr) (w : world) (st : state) :
  plain_name name = true -> forallb is_ascii txt = true ->
  re_search name txt w st = (Ok (contains (lower name) (lower txt)), st).
Proof.
  intros Hp Ht. pose proof (plain_name_ascii name Hp) as Hn.
  unfold re_search. rewrite (tokenize_plain name Hp), parse_tokens_plain.
  cbn [parse_tokens close_frame fst snd].
  rewrite (search_literal name txt Hn Ht), (lower_ascii name Hn), (lower_ascii txt Ht).
  reflexivity.
Qed.

(** X15. For an ASCII institution name without any character special to
    [re], on a listing whose university blocks are ASCII, the Pakistan
    adapter is a plain search: the institution is recognized exactly when
    its lower-cased name occurs in the lower-cased text of some block, the
    rule the Bangladesh adapter applies to its list items. *)
Theorem plain_name_is_searched_as_text (name : pystr) (w : world) (st : state)
  (resp : response) :
  plain_name name = true ->
  http w (mkRequest GET hec_pakistan_url []) = Ok resp ->
  let blocks :=
    select_class (html_parser (text resp)) (py "div") (py "university-name") in
  Forall (fun d => forallb is_ascii (get_text d) = true) blocks ->
  fst (check_hec_pakistan name w st)
  = Ok (existsb (fun d => contains (lower name) (lower (get_text d))) blocks).
Proof.
  intros Hp Hget blocks Hascii.
  unfold check_hec_pakistan, requests_get, send. unfold bind at 1.
  rewrite Hget. fold blocks.
  rewrite (any_M_pure (fun d => re_search name (get_text d))
             (fun d => contains (lower name) (lower (get_text d)))).
  - reflexivity.
  - intros d Hd. apply re_search_plain; [exact Hp|].
    rewrite Forall_forall in Hascii. now apply Hascii.
Qed.

(** X16. What the Pakistan and the Bangladesh adapters answer depends on
    the entries of the fetched listing only (the university blocks, the
    list items of the content body): with no entry no institution is
    recognized, whatever its name and whatever else the page says; and the
    empty name is recognized as soon as there is one entry. *)
Theorem empty_name_needs_an_entry (w : world) (st : state) (resp : response) :
  (http w (mkRequest GET hec_pakistan_url []) = Ok resp ->
   let blocks :=
     select_class (html_parser (text resp)) (py "div") (py "university-name") in
   (blocks = [] ->
    forall institution, fst (check_hec_pakistan institution w st) = Ok false)
   /\ (blocks <> [] -> fst (check_hec_pakistan [] w st) = Ok true))
  /\ (http w (mkRequest GET ugc_bangladesh_url []) = Ok resp ->
   let items :=
     select_descendant (html_parser (text resp)) (py "div") (py "content-body")
       (py "li") in
   (items = [] ->
    forall institution, fst (check_ugc_bangladesh institution w st) = Ok false)
   /\ (items <> [] -> fst (check_ugc_bangladesh [] w st) = Ok true)).
Proof.
  split; intros Hget.
  - intros blocks. split.
    + intros Hnil institution.
      unfold check_hec_pakistan, requests_get, send. unfold bind at 1.
      rewrite Hget. fold blocks. now rewrite Hnil.
    + intros Hne.
      unfold check_hec_pakistan, requests_get, send. unfold bind at 1.
      rewrite Hget. fold blocks. destruct blocks as [|d ds]; [congruence|].
      simpl. unfold bind, re_search; simpl.
      destruct (get_text d); reflexivity.
  - intros items. split.
    + intros Hnil institution.
      unfold check_ugc_bangladesh, requests_get, send, bind.
      rewrite Hget. fold items. now rewrite Hnil.
    + intros Hne.
      unfold check_ugc_bangladesh, requests_get, send, bind.
      rewrite Hget. fold items. destruct items as [|li lis]; [congruence|].
      simpl. now rewrite contains_empty.
Qed.

End PlainNames.

Lemma plain_name_is_searched_as_text_witness :
  let R := sample_runtime in
  fst (check_hec_pakistan (py "AB") (serving 200 (hec_page "abc")) init_state) = Ok true
  /\ fst (check_hec_pakistan (py "bd") (serving 200 (hec_page "abc")) init_state) = Ok false.
Proof.
  intros R. split.
  - apply (@plain_name_is_searched_as_text R (py "AB") (serving 200 (hec_page "abc"))
             init_state (mkResponse 200 (hec_page "abc")) eq_refl eq_refl).
    repeat constructor.
  - apply (@plain_name_is_searched_as_text R (py "bd") (serving 200 (hec_page "abc"))
             init_state (mkResponse 200 (hec_page "abc")) eq_refl eq_refl).
    repeat constructor.
Defined.

Lemma empty_name_needs_an_entry_witness :
  let R := sample_runtime in
  fst (check_hec_pakistan [] (serving 200 hec_empty_page) init_state) = Ok false
  /\ fst (check_hec_pakistan [] (serving 200 (hec_page "abc")) init_state) = Ok true
  /\ fst (check_ugc_bangladesh (py "Dhaka") (serving 200 hec_empty_page) init_state)
     = Ok false.
Proof.
  intros R. split; [|split].
  - apply (proj1 (proj1 (@empty_name_needs_an_entry R (serving 200 hec_empty_page)
                           init_state (mkResponse 200 hec_empty_page)) eq_refl)
             eq_refl []).
  - apply (proj2 (proj1 (@empty_name_needs_an_entry R (serving 200 (hec_page "abc"))
                           init_state (mkResponse 200 (hec_page "abc"))) eq_refl)).
    discriminate.
  - apply (proj1 (proj2 (@empty_name_needs_an_entry R (serving 200 hec_empty_page)
                           init_state (mkResponse 200 hec_empty_page)) eq_refl)
             eq_refl (py "Dhaka")).
Defined.
